(** * File synchronisation server: dispatcher, sync ledger and versioned store

    A shallow embedding of the server side of the RMI file synchronisation
    system (server/dispatcher.py, server/file_handler.py, common/auth.py,
    common/protocol.py, the request handler of server/threads.py and the
    users file of server/server_main.py), with the properties of its
    protocol engine, of its HTTP layer and of the Authorization header the
    client writes and the server reads.

    Conventions of the embedding.
    - A Python [str] is a Rocq [string] holding its UTF-8 bytes, so that
      [s.encode()] is the byte sequence of the string itself.
    - A Python [dict] with string keys is a [gmap string _].
    - [time.time()] and [uuid.uuid4()] read the environment: the world
      carries the sequence of clock readings and of identifiers the
      environment will deliver, and a reading consumes one of them.
    - A timestamp is a number the code stores and hands back and never
      computes with; it is kept as an integer.
    - The master file and the users file are in the world as what the
      code finds at their paths; a failing disk is a state of the world.
    - The master file is opened in text mode, on a POSIX system: a write
      leaves the line ends as they are, a read turns every carriage
      return with its line feed, and every other carriage return, into a
      line feed. The world holds the master file as [read()] returns it.
    - Handlers run one at a time (the model has no interleaving inside a
      handler), so [with self.lock] is the identity. *)

From Stdlib Require Import ZArith List Ascii String.
From stdpp Require Import base option gmap strings list fin_maps.

(** ** hashlib: MD5 (RFC 1321) and SHA-256 (FIPS 180-4)

    [hashlib] is Python's library; the two digests the server uses are
    written out here so that fingerprints and password hashes compute. *)

Module Hashlib.
Local Open Scope Z_scope.

Definition word (x : Z) : Z := x mod 2 ^ 32.
Definition add32 (x y : Z) : Z := word (x + y).
Definition not32 (x : Z) : Z := Z.lxor x 0xffffffff.
Definition rotl32 (x n : Z) : Z :=
  Z.lor (word (Z.shiftl x n)) (Z.shiftr x (32 - n)).
Definition rotr32 (x n : Z) : Z :=
  Z.lor (Z.shiftr x n) (word (Z.shiftl x (32 - n))).

Definition bytes_of_string (s : string) : list Z :=
  map (fun c => Z.of_N (N_of_ascii c)) (list_ascii_of_string s).

(** Little-endian and big-endian bytes of a number, [n] of them. *)
Fixpoint le_bytes (n : nat) (x : Z) : list Z :=
  match n with
  | O => []
  | S k => (x mod 256) :: le_bytes k (x / 256)
  end.

Definition be_bytes (n : nat) (x : Z) : list Z := rev (le_bytes n x).

Fixpoint le_words (bs : list Z) : list Z :=
  match bs with
  | b0 :: b1 :: b2 :: b3 :: rest =>
      (b0 + 256 * b1 + 65536 * b2 + 16777216 * b3) :: le_words rest
  | _ => []
  end.

Fixpoint be_words (bs : list Z) : list Z :=
  match bs with
  | b0 :: b1 :: b2 :: b3 :: rest =>
      (16777216 * b0 + 65536 * b1 + 256 * b2 + b3) :: be_words rest
  | _ => []
  end.

(** Blocks of sixteen words. *)
Fixpoint blocks (fuel : nat) (ws : list Z) : list (list Z) :=
  match fuel, ws with
  | S f, _ :: _ => firstn 16 ws :: blocks f (skipn 16 ws)
  | _, _ => []
  end.

(** The message, the byte 0x80, zero bytes up to 56 modulo 64; the 64-bit
    length in bits is appended by each digest in its own byte order. *)
Definition pad_zeros (len : Z) : list Z :=
  repeat 0 (Z.to_nat ((55 - len) mod 64)).

Definition hex_digit (d : Z) : ascii :=
  ascii_of_N (Z.to_N (if d <? 10 then 48 + d else 87 + d)).

Fixpoint hex_of_bytes (bs : list Z) : string :=
  match bs with
  | [] => EmptyString
  | b :: rest => String (hex_digit (b / 16)) (String (hex_digit (b mod 16)) (hex_of_bytes rest))
  end.

(** *** MD5 *)

Definition md5_s : list Z :=
  [7; 12; 17; 22; 7; 12; 17; 22; 7; 12; 17; 22; 7; 12; 17; 22;
   5; 9; 14; 20; 5; 9; 14; 20; 5; 9; 14; 20; 5; 9; 14; 20;
   4; 11; 16; 23; 4; 11; 16; 23; 4; 11; 16; 23; 4; 11; 16; 23;
   6; 10; 15; 21; 6; 10; 15; 21; 6; 10; 15; 21; 6; 10; 15; 21].

Definition md5_K : list Z :=
  [0xd76aa478; 0xe8c7b756; 0x242070db; 0xc1bdceee;
   0xf57c0faf; 0x4787c62a; 0xa8304613; 0xfd469501;
   0x698098d8; 0x8b44f7af; 0xffff5bb1; 0x895cd7be;
   0x6b901122; 0xfd987193; 0xa679438e; 0x49b40821;
   0xf61e2562; 0xc040b340; 0x265e5a51; 0xe9b6c7aa;
   0xd62f105d; 0x02441453; 0xd8a1e681; 0xe7d3fbc8;
   0x21e1cde6; 0xc33707d6; 0xf4d50d87; 0x455a14ed;
   0xa9e3e905; 0xfcefa3f8; 0x676f02d9; 0x8d2a4c8a;
   0xfffa3942; 0x8771f681; 0x6d9d6122; 0xfde5380c;
   0xa4beea44; 0x4bdecfa9; 0xf6bb4b60; 0xbebfbc70;
   0x289b7ec6; 0xeaa127fa; 0xd4ef3085; 0x04881d05;
   0xd9d4d039; 0xe6db99e5; 0x1fa27cf8; 0xc4ac5665;
   0xf4292244; 0x432aff97; 0xab9423a7; 0xfc93a039;
   0x655b59c3; 0x8f0ccc92; 0xffeff47d; 0x85845dd1;
   0x6fa87e4f; 0xfe2ce6e0; 0xa3014314; 0x4e0811a1;
   0xf7537e82; 0xbd3af235; 0x2ad7d2bb; 0xeb86d391].

Record md5_state := Md5 { md5_a : Z; md5_b : Z; md5_c : Z; md5_d : Z }.

Definition md5_init : md5_state :=
  Md5 0x67452301 0xefcdab89 0x98badcfe 0x10325476.

Definition md5_round (M : list Z) (st : md5_state) (i : Z) : md5_state :=
  let '(Md5 A B C D) := st in
  let '(F, g) :=
    if i <? 16 then (Z.lor (Z.land B C) (Z.land (not32 B) D), i)
    else if i <? 32 then (Z.lor (Z.land D B) (Z.land (not32 D) C), (5 * i + 1) mod 16)
    else if i <? 48 then (Z.lxor (Z.lxor B C) D, (3 * i + 5) mod 16)
    else (Z.lxor C (Z.lor B (not32 D)), (7 * i) mod 16) in
  let F' := add32 (add32 (add32 F A) (nth (Z.to_nat i) md5_K 0)) (nth (Z.to_nat g) M 0) in
  Md5 D (add32 B (rotl32 F' (nth (Z.to_nat i) md5_s 0))) B C.

Definition md5_block (st : md5_state) (M : list Z) : md5_state :=
  let '(Md5 A B C D) := fold_left (md5_round M) (map Z.of_nat (seq 0 64)) st in
  Md5 (add32 (md5_a st) A) (add32 (md5_b st) B)
      (add32 (md5_c st) C) (add32 (md5_d st) D).

Definition md5_digest (msg : list Z) : list Z :=
  let len := Z.of_nat (length msg) in
  let padded := msg ++ [0x80] ++ pad_zeros len ++ le_bytes 8 (8 * len) in
  let ws := le_words padded in
  let '(Md5 A B C D) := fold_left md5_block (blocks (length ws) ws) md5_init in
  le_bytes 4 A ++ le_bytes 4 B ++ le_bytes 4 C ++ le_bytes 4 D.

(** [hashlib.md5(s.encode()).hexdigest()] *)
Definition md5_hexdigest (s : string) : string :=
  hex_of_bytes (md5_digest (bytes_of_string s)).

(** *** SHA-256 *)

(** The constants are defined from the primes: the first 32 bits of the
    fractional part of the cube root (round constants, 64 primes) and of
    the square root (initial hash value, 8 primes) of each. *)
Definition is_prime (n : nat) : bool :=
  forallb (fun d => negb (n mod d =? 0)%nat) (seq 2 (n - 2)).

Definition primes : list Z := map Z.of_nat (filter is_prime (seq 2 310)).

(** The integer cube root, found bit by bit from the top. *)
Fixpoint cbrt_from (bits : nat) (n x : Z) : Z :=
  match bits with
  | O => x
  | S b =>
      let y := x + 2 ^ Z.of_nat b in
      cbrt_from b n (if y * y * y <=? n then y else x)
  end.

Definition fraction_of_cbrt (p : Z) : Z := word (cbrt_from 36 (p * 2 ^ 96) 0).
Definition fraction_of_sqrt (p : Z) : Z := word (Z.sqrt (p * 2 ^ 64)).

Definition sha256_K : list Z := Eval vm_compute in map fraction_of_cbrt primes.

Definition sha256_init : list Z :=
  Eval vm_compute in map fraction_of_sqrt (firstn 8 primes).

Definition ssig0 (x : Z) : Z := Z.lxor (Z.lxor (rotr32 x 7) (rotr32 x 18)) (Z.shiftr x 3).
Definition ssig1 (x : Z) : Z := Z.lxor (Z.lxor (rotr32 x 17) (rotr32 x 19)) (Z.shiftr x 10).
Definition bsig0 (x : Z) : Z := Z.lxor (Z.lxor (rotr32 x 2) (rotr32 x 13)) (rotr32 x 22).
Definition bsig1 (x : Z) : Z := Z.lxor (Z.lxor (rotr32 x 6) (rotr32 x 11)) (rotr32 x 25).
Definition ch (x y z : Z) : Z := Z.lxor (Z.land x y) (Z.land (not32 x) z).
Definition maj (x y z : Z) : Z := Z.lxor (Z.lxor (Z.land x y) (Z.land x z)) (Z.land y z).

(** The message schedule, kept newest first: [W] holds W(t-1), W(t-2), ... *)
Definition sha256_extend (W : list Z) (_ : nat) : list Z :=
  add32 (add32 (add32 (ssig1 (nth 1 W 0)) (nth 6 W 0)) (ssig0 (nth 14 W 0))) (nth 15 W 0) :: W.

Definition sha256_schedule (M : list Z) : list Z :=
  rev (fold_left sha256_extend (seq 16 48) (rev M)).

Definition sha256_round (W : list Z) (h : list Z) (t : nat) : list Z :=
  match h with
  | [a; b; c; d; e; f; g; hh] =>
      let T1 := add32 (add32 (add32 (add32 hh (bsig1 e)) (ch e f g)) (nth t sha256_K 0)) (nth t W 0) in
      let T2 := add32 (bsig0 a) (maj a b c) in
      [add32 T1 T2; a; b; c; add32 d T1; e; f; g]
  | _ => h
  end.

Definition sha256_block (h : list Z) (M : list Z) : list Z :=
  let W := sha256_schedule M in
  zip_with add32 h (fold_left (sha256_round W) (seq 0 64) h).

Definition sha256_digest (msg : list Z) : list Z :=
  let len := Z.of_nat (length msg) in
  let padded := msg ++ [0x80] ++ pad_zeros len ++ be_bytes 8 (8 * len) in
  let ws := be_words padded in
  flat_map (be_bytes 4) (fold_left sha256_block (blocks (length ws) ws) sha256_init).

(** [hashlib.sha256(s.encode()).hexdigest()] *)
Definition sha256_hexdigest (s : string) : string :=
  hex_of_bytes (sha256_digest (bytes_of_string s)).

End Hashlib.

Local Open Scope string_scope.

(** ** Values, exceptions and the world *)

(** A value stored in the [data] dictionary of a response. *)
Inductive value :=
  | VStr (s : string)
  | VNum (t : Z)
  | VBool (b : bool).

(** The exceptions the modelled code can meet. The text of an exception
    raised by the interpreter is the interpreter's own; the model keeps a
    short description in its place, and no property below depends on it. *)
Inductive exn :=
  | TypeError (msg : string)
  | AttributeError (msg : string)
  | OSError (msg : string).

(** [str(e)] *)
Definition str_exn (e : exn) : string :=
  match e with
  | TypeError msg | AttributeError msg | OSError msg => msg
  end.

Inductive result (A : Type) :=
  | Ok (a : A)
  | Raise (e : exn).
Arguments Ok {A} a.
Arguments Raise {A} e.

(** dispatcher.py, class SyncRecord *)
Record SyncRecord := {
  sync_id : string;
  client_ip : string;
  username : string;
  request_time : Z;
  confirmed : bool;
  acknowledged : bool;
  confirmation_time : option Z;
  acknowledgment_time : option Z
}.

(** What [json.load] finds at the path [users_file]. *)
Inductive UsersFile :=
  | NoUsersFile                             (* os.path.exists is False *)
  | BadUsersFile                            (* open or json.load raises *)
  | UsersTable (users : gmap string string) (* username -> stored hash *).

(** The dispatcher's memory, the files it works on, and the environment. *)
Record World := {
  sync_records : gmap string SyncRecord; (* Dispatcher.sync_records *)
  master_file : option string;           (* the file at file_path; None: absent *)
  master_mtime : Z;                      (* os.path.getmtime(file_path) *)
  users_file : UsersFile;                (* the file at Dispatcher.users_file *)
  log_file : list string;                (* messages logged, oldest first *)
  io_error : option string;              (* Some msg: open(file_path) raises OSError(msg) *)
  clock : nat -> Z;                      (* the readings of time.time() to come *)
  ticks : nat;                           (* readings consumed *)
  uuids : nat -> string;                 (* the values of str(uuid.uuid4()) to come *)
  draws : nat                            (* identifiers consumed *)
}.

Definition with_sync_records (f : gmap string SyncRecord -> gmap string SyncRecord)
    (w : World) : World :=
  {| sync_records := f (sync_records w); master_file := master_file w;
     master_mtime := master_mtime w; users_file := users_file w;
     log_file := log_file w; io_error := io_error w; clock := clock w;
     ticks := ticks w; uuids := uuids w; draws := draws w |}.

Definition with_master (content : string) (mtime : Z) (w : World) : World :=
  {| sync_records := sync_records w; master_file := Some content;
     master_mtime := mtime; users_file := users_file w;
     log_file := log_file w; io_error := io_error w; clock := clock w;
     ticks := ticks w; uuids := uuids w; draws := draws w |}.

Definition with_log (line : string) (w : World) : World :=
  {| sync_records := sync_records w; master_file := master_file w;
     master_mtime := master_mtime w; users_file := users_file w;
     log_file := log_file w ++ [line]; io_error := io_error w; clock := clock w;
     ticks := ticks w; uuids := uuids w; draws := draws w |}.

Definition with_tick (w : World) : World :=
  {| sync_records := sync_records w; master_file := master_file w;
     master_mtime := master_mtime w; users_file := users_file w;
     log_file := log_file w; io_error := io_error w; clock := clock w;
     ticks := S (ticks w); uuids := uuids w; draws := draws w |}.

Definition with_draw (w : World) : World :=
  {| sync_records := sync_records w; master_file := master_file w;
     master_mtime := master_mtime w; users_file := users_file w;
     log_file := log_file w; io_error := io_error w; clock := clock w;
     ticks := ticks w; uuids := uuids w; draws := S (draws w) |}.

(** ** The monad of handlers: state and exceptions *)

Definition M (A : Type) : Type := World -> result A * World.

Global Instance M_ret : MRet M := fun A a w => (Ok a, w).

Global Instance M_bind : MBind M := fun A B k m w =>
  match m w with
  | (Ok a, w') => k a w'
  | (Raise e, w') => (Raise e, w')
  end.

Definition raise {A : Type} (e : exn) : M A := fun w => (Raise e, w).

(** [try: body except Exception as e: handler] *)
Definition try_except {A : Type} (body : M A) (handler : exn -> M A) : M A :=
  fun w =>
    match body w with
    | (Ok a, w') => (Ok a, w')
    | (Raise e, w') => handler e w'
    end.

Definition gets {A : Type} (f : World -> A) : M A := fun w => (Ok (f w), w).
Definition modify (f : World -> World) : M unit := fun w => (Ok tt, f w).

(** [time.time()] *)
Definition time_time : M Z := fun w => (Ok (clock w (ticks w)), with_tick w).

(** [str(uuid.uuid4())] *)
Definition uuid4 : M string := fun w => (Ok (uuids w (draws w)), with_draw w).

(** [logging.info(message)] *)
Definition logging_info (message : string) : M unit := modify (with_log message).

(** ** common/auth.py *)

Definition hash_password (password : string) : string :=
  Hashlib.sha256_hexdigest password.

(** [verify_user(username, password, users_file)], on what the users file
    holds. A missing file, and a file that does not load, give [False]. *)
Definition verify_user (username password : string) (file : UsersFile) : bool :=
  match file with
  | NoUsersFile => false
  | BadUsersFile => false
  | UsersTable users =>
      match users !! username with
      | Some stored_hash =>
          let password_hash := hash_password password in
          bool_decide (stored_hash = password_hash)
      | None => false
      end
  end.

(** ** common/protocol.py *)

(** The response envelope: a dictionary with the keys [success] and
    [timestamp], and the keys [data] and [error] when they are given. *)
Record Response := {
  success : bool;
  timestamp : Z;
  data : option (gmap string value);
  error : option string
}.

Definition create_response (success : bool) (data : option (gmap string value))
    (error : option string) : M Response :=
  now ← time_time;
  mret {| success := success; timestamp := now; data := data; error := error |}.

Definition create_sync_response (success : bool) (content version sync_id : option string)
    (error : option string) : M Response :=
  sync_id ← match sync_id with
            | None => uuid4
            | Some given => mret given
            end;
  now ← time_time;
  let data : gmap string value :=
    <["timestamp" := VNum now]> (<["sync_id" := VStr sync_id]> ∅) in
  let data := match content with
              | Some c => <["content" := VStr c]> data
              | None => data
              end in
  let data := match version with
              | Some v => <["version" := VStr v]> data
              | None => data
              end in
  create_response success (Some data) error.

(** ** server/file_handler.py *)

Definition newline : string := String (ascii_of_nat 10) EmptyString.

Definition initial_content : string :=
  "# Master file for RMI File Synchronization System" ++ newline.

(** [open(self.file_path, ...)]: fails when the disk does. *)
Definition open_master : M unit := fun w =>
  match io_error w with
  | Some msg => (Raise (OSError msg), w)
  | None => (Ok tt, w)
  end.

(** What [f.read()] returns, in text mode, of a file in which [content]
    was written: universal newlines, [\r\n] and [\r] read as [\n]. *)
Fixpoint universal_newlines (content : string) : string :=
  match content with
  | EmptyString => EmptyString
  | String c rest =>
      if Ascii.eqb c (ascii_of_nat 13) then
        match rest with
        | String c' rest' =>
            if Ascii.eqb c' (ascii_of_nat 10)
            then String (ascii_of_nat 10) (universal_newlines rest')
            else String (ascii_of_nat 10) (universal_newlines rest)
        | EmptyString => String (ascii_of_nat 10) EmptyString
        end
      else String c (universal_newlines rest)
  end.


(** [with open(self.file_path, 'w') as f: f.write(content)]; the file
    system stamps the file with a reading of the clock. The file is kept
    as a later [open(self.file_path, 'r')] reads it. *)
Definition write_master (content : string) : M unit :=
  open_master;;
  mtime ← time_time;
  modify (with_master (universal_newlines content) mtime).

(** [os.path.exists(self.file_path)] *)
Definition master_exists : M bool := gets (fun w => bool_decide (is_Some (master_file w))).

Definition _ensure_file_exists : M unit := write_master initial_content.

Definition get_content : M string :=
  file_exists ← master_exists;
  (if negb file_exists then _ensure_file_exists else mret tt);;
  open_master;;
  stored ← gets master_file;
  match stored with
  | Some content => mret content
  | None => raise (OSError "No such file or directory")
  end.

Definition update_content (content : string) : M bool :=
  try_except (write_master content;; mret true) (fun _ => mret false).

Definition get_version : M string :=
  content ← get_content;
  mret (Hashlib.md5_hexdigest content).

Definition get_last_modified : M Z :=
  file_exists ← master_exists;
  if file_exists : bool then gets master_mtime
  else (_ensure_file_exists;; gets master_mtime).

(** The dictionary [get_file_status] returns. *)
Record FileStatus := {
  content : string;
  version : string;
  last_modified : Z
}.

Definition get_file_status : M FileStatus :=
  content ← get_content;
  let version := Hashlib.md5_hexdigest content in
  last_modified ← get_last_modified;
  mret {| content := content; version := version; last_modified := last_modified |}.

(** ** server/dispatcher.py *)

(** [SyncRecord(sync_id, client_ip, username)] *)
Definition SyncRecord_init (sync_id client_ip username : string) : M SyncRecord :=
  now ← time_time;
  mret {| sync_id := sync_id; client_ip := client_ip; username := username;
          request_time := now; confirmed := false; acknowledged := false;
          confirmation_time := None; acknowledgment_time := None |}.

(** Python's truth value of a string. *)
Definition truthy (s : string) : bool :=
  match s with
  | EmptyString => false
  | String _ _ => true
  end.

Definition log_sync_attempt (client_ip username operation : string) (success : bool)
    (error : option string) : M unit :=
  let status := if success then "SUCCESS" else "FAILED" in
  let message := "SYNC " ++ status ++ " - IP: " ++ client_ip ++ " - User: " ++ username
                 ++ " - Operation: " ++ operation in
  let message := match error with
                 | Some text => if truthy text then message ++ " - Error: " ++ text else message
                 | None => message
                 end in
  logging_info message.

Definition authenticate (username password client_ip : string) : M bool :=
  is_authenticated ← gets (fun w => verify_user username password (users_file w));
  (if negb is_authenticated
   then log_sync_attempt client_ip username "authentication" false (Some "Invalid credentials")
   else mret tt);;
  mret is_authenticated.

Definition get_file_content (username password client_ip protocol : string) : M Response :=
  authenticated ← authenticate username password client_ip;
  if negb authenticated then create_response false None (Some "Authentication failed")
  else
    try_except
      (file_status ← get_file_status;
       sync_id ← uuid4;
       log_sync_attempt client_ip username ("get_file_content (" ++ protocol ++ ")") true None;;
       (if bool_decide (protocol ∈ ["RR"; "RRA"])
        then record ← SyncRecord_init sync_id client_ip username;
             modify (with_sync_records (insert sync_id record))
        else mret tt);;
       create_sync_response true (Some (content file_status)) (Some (version file_status))
         (Some sync_id) None)
      (fun e =>
         log_sync_attempt client_ip username ("get_file_content (" ++ protocol ++ ")") false
           (Some (str_exn e));;
         create_response false None (Some ("Error getting file content: " ++ str_exn e))).

Definition check_master_version (username password client_ip : string) : M Response :=
  authenticated ← authenticate username password client_ip;
  if negb authenticated then create_response false None (Some "Authentication failed")
  else
    try_except
      (version ← get_version;
       last_modified ← get_last_modified;
       log_sync_attempt client_ip username "check_master_version" true None;;
       create_response true
         (Some (<["last_modified" := VNum last_modified]> (<["version" := VStr version]> ∅)))
         None)
      (fun e =>
         log_sync_attempt client_ip username "check_master_version" false (Some (str_exn e));;
         create_response false None (Some ("Error checking version: " ++ str_exn e))).

Definition mark_confirmed (now : Z) (record : SyncRecord) : SyncRecord :=
  {| sync_id := sync_id record; client_ip := client_ip record; username := username record;
     request_time := request_time record; confirmed := true;
     acknowledged := acknowledged record; confirmation_time := Some now;
     acknowledgment_time := acknowledgment_time record |}.

Definition mark_acknowledged (now : Z) (record : SyncRecord) : SyncRecord :=
  {| sync_id := sync_id record; client_ip := client_ip record; username := username record;
     request_time := request_time record; confirmed := confirmed record;
     acknowledged := true; confirmation_time := confirmation_time record;
     acknowledgment_time := Some now |}.

Definition confirm_sync (username password sync_id client_ip : string) : M Response :=
  authenticated ← authenticate username password client_ip;
  if negb authenticated then create_response false None (Some "Authentication failed")
  else
    found ← gets (fun w => sync_records w !! sync_id);
    match found with
    | None =>
        log_sync_attempt client_ip username "confirm_sync" false
          (Some ("Unknown sync ID: " ++ sync_id));;
        create_response false None (Some ("Unknown sync ID: " ++ sync_id))
    | Some record =>
        now ← time_time;
        modify (with_sync_records (insert sync_id (mark_confirmed now record)));;
        log_sync_attempt client_ip username "confirm_sync" true None;;
        create_response true
          (Some (<["confirmed" := VBool true]> (<["sync_id" := VStr sync_id]> ∅))) None
    end.

Definition acknowledge_sync (username password sync_id client_ip : string) : M Response :=
  authenticated ← authenticate username password client_ip;
  if negb authenticated then create_response false None (Some "Authentication failed")
  else
    found ← gets (fun w => sync_records w !! sync_id);
    match found with
    | None =>
        log_sync_attempt client_ip username "acknowledge_sync" false
          (Some ("Unknown sync ID: " ++ sync_id));;
        create_response false None (Some ("Unknown sync ID: " ++ sync_id))
    | Some record =>
        now ← time_time;
        modify (with_sync_records (insert sync_id (mark_acknowledged now record)));;
        log_sync_attempt client_ip username "acknowledge_sync" true None;;
        create_response true
          (Some (<["acknowledged" := VBool true]> (<["sync_id" := VStr sync_id]> ∅))) None
    end.

(** *** Dynamic dispatch: [hasattr], [getattr], [callable]

    [handle_request] looks the method name up among the attributes of the
    dispatcher object. These are the attributes [__init__] assigns, the
    methods the class defines, and what every object inherits from
    [object]. *)

Inductive handler :=
  | h_init
  | h_setup_logging
  | h_log_sync_attempt
  | h_handle_request
  | h_authenticate
  | h_get_file_content
  | h_check_master_version
  | h_confirm_sync
  | h_acknowledge_sync.

Inductive attribute :=
  | Field                      (* assigned in __init__; not callable *)
  | Method (h : handler)       (* defined in class Dispatcher *)
  | Builtin (is_callable : bool) (* inherited from object *).

Definition instance_attributes : list string :=
  ["file_handler"; "users_file"; "log_file"; "sync_records"].

Definition class_methods : gmap string handler :=
  list_to_map
    [("__init__", h_init); ("_setup_logging", h_setup_logging);
     ("log_sync_attempt", h_log_sync_attempt); ("handle_request", h_handle_request);
     ("authenticate", h_authenticate); ("get_file_content", h_get_file_content);
     ("check_master_version", h_check_master_version); ("confirm_sync", h_confirm_sync);
     ("acknowledge_sync", h_acknowledge_sync)].

(** The attributes of [object] (CPython 3.11), with whether each is
    callable. None of the callable ones takes keyword arguments. *)
Definition object_attributes : gmap string bool :=
  list_to_map
    [("__class__", true); ("__delattr__", true); ("__dict__", false); ("__dir__", true);
     ("__doc__", false); ("__eq__", true); ("__format__", true); ("__ge__", true);
     ("__getattribute__", true); ("__getstate__", true); ("__gt__", true);
     ("__hash__", true); ("__init_subclass__", true); ("__le__", true); ("__lt__", true);
     ("__module__", false); ("__ne__", true); ("__new__", true); ("__reduce__", true);
     ("__reduce_ex__", true); ("__repr__", true); ("__setattr__", true);
     ("__sizeof__", true); ("__str__", true); ("__subclasshook__", true);
     ("__weakref__", false)].

(** [getattr(self, name)]; [None] when [hasattr(self, name)] is false. *)
Definition getattr (name : string) : option attribute :=
  if bool_decide (name ∈ instance_attributes) then Some Field
  else match class_methods !! name with
       | Some h => Some (Method h)
       | None => Builtin <$> object_attributes !! name
       end.

Definition callable (a : attribute) : bool :=
  match a with
  | Field => false
  | Method _ => true
  | Builtin is_callable => is_callable
  end.

(** The parameters of each method after [self]: those without a default,
    and those with one. *)
Definition required (h : handler) : list string :=
  match h with
  | h_init => ["master_file_path"; "users_file"; "log_file"]
  | h_setup_logging => []
  | h_log_sync_attempt => ["client_ip"; "username"; "operation"; "success"]
  | h_handle_request => ["method"; "params"; "client_ip"]
  | h_authenticate => ["username"; "password"; "client_ip"]
  | h_get_file_content => ["username"; "password"; "client_ip"]
  | h_check_master_version => ["username"; "password"; "client_ip"]
  | h_confirm_sync => ["username"; "password"; "sync_id"; "client_ip"]
  | h_acknowledge_sync => ["username"; "password"; "sync_id"; "client_ip"]
  end.

Definition optional (h : handler) : list string :=
  match h with
  | h_log_sync_attempt => ["error"]
  | h_get_file_content => ["protocol"]
  | _ => []
  end.

(** Binding of the keywords of [handler(client_ip=client_ip, **params)].
    The values of [params] are strings, as the query string delivers them
    and as the handlers annotate them. *)
Definition bind_keywords (h : handler) (client_ip : string) (params : gmap string string)
    : M (gmap string string) :=
  if bool_decide (is_Some (params !! "client_ip"))
  then raise (TypeError "got multiple values for keyword argument 'client_ip'")
  else
    let kwargs := <["client_ip" := client_ip]> params in
    if negb (bool_decide (dom kwargs ⊆ list_to_set (required h ++ optional h)))
    then raise (TypeError "got an unexpected keyword argument")
    else if negb (bool_decide (Forall (fun name => is_Some (kwargs !! name)) (required h)))
    then raise (TypeError "missing required positional arguments")
    else mret kwargs.

(** What a call through [handle_request] can return: the handlers return
    a response, [authenticate] a boolean, [log_sync_attempt] nothing. *)
Inductive retval :=
  | RetResponse (r : Response)
  | RetBool (b : bool)
  | RetNone.

Definition arg (kwargs : gmap string string) (name : string) : string :=
  default EmptyString (kwargs !! name).

(** The body of a method, on keywords that bound. [__init__] and
    [_setup_logging] have no parameter [client_ip], so their keywords
    never bind; the inner [handle_request] is given a string for
    [params], on which [params.get] raises, in its [except] clause too. *)
Definition invoke (h : handler) (kwargs : gmap string string) : M retval :=
  match h with
  | h_init | h_setup_logging =>
      raise (TypeError "got an unexpected keyword argument")
  | h_log_sync_attempt =>
      log_sync_attempt (arg kwargs "client_ip") (arg kwargs "username")
        (arg kwargs "operation") (truthy (arg kwargs "success")) (kwargs !! "error");;
      mret RetNone
  | h_handle_request =>
      raise (AttributeError "'str' object has no attribute 'get'")
  | h_authenticate =>
      b ← authenticate (arg kwargs "username") (arg kwargs "password") (arg kwargs "client_ip");
      mret (RetBool b)
  | h_get_file_content =>
      r ← get_file_content (arg kwargs "username") (arg kwargs "password")
            (arg kwargs "client_ip") (default "R" (kwargs !! "protocol"));
      mret (RetResponse r)
  | h_check_master_version =>
      r ← check_master_version (arg kwargs "username") (arg kwargs "password")
            (arg kwargs "client_ip");
      mret (RetResponse r)
  | h_confirm_sync =>
      r ← confirm_sync (arg kwargs "username") (arg kwargs "password")
            (arg kwargs "sync_id") (arg kwargs "client_ip");
      mret (RetResponse r)
  | h_acknowledge_sync =>
      r ← acknowledge_sync (arg kwargs "username") (arg kwargs "password")
            (arg kwargs "sync_id") (arg kwargs "client_ip");
      mret (RetResponse r)
  end.

(** [handler(client_ip=client_ip, **params)] *)
Definition call (a : attribute) (client_ip : string) (params : gmap string string) : M retval :=
  match a with
  | Method h => kwargs ← bind_keywords h client_ip params; invoke h kwargs
  | Builtin _ => raise (TypeError "takes no keyword arguments")
  | Field => raise (TypeError "object is not callable")
  end.

Definition handle_request (method : string) (params : gmap string string)
    (client_ip : string) : M retval :=
  try_except
    (match getattr method with
     | None =>
         log_sync_attempt client_ip (default "unknown" (params !! "username")) method false
           (Some "Method not found");;
         r ← create_response false None (Some ("Method '" ++ method ++ "' not found"));
         mret (RetResponse r)
     | Some handler =>
         if negb (callable handler)
         then
           log_sync_attempt client_ip (default "unknown" (params !! "username")) method false
             (Some "Not a callable method");;
           r ← create_response false None (Some ("'" ++ method ++ "' is not a callable method"));
           mret (RetResponse r)
         else call handler client_ip params
     end)
    (fun e =>
       log_sync_attempt client_ip (default "unknown" (params !! "username")) method false
         (Some (str_exn e));;
       r ← create_response false None (Some ("Error processing request: " ++ str_exn e));
       mret (RetResponse r)).

(** ** server/threads.py: the routing table of the HTTP layer *)

Definition ENDPOINTS : gmap string string :=
  list_to_map
    [("/file/content", "get_file_content"); ("/file/version", "check_master_version");
     ("/sync/confirm", "confirm_sync"); ("/sync/acknowledge", "acknowledge_sync")].

(** ** Sequences of remote calls *)

(** One call of one of the four remote operations. *)
Inductive Call :=
  | GetFileContent (username password client_ip protocol : string)
  | CheckMasterVersion (username password client_ip : string)
  | ConfirmSync (username password sync_id client_ip : string)
  | AcknowledgeSync (username password sync_id client_ip : string).

Definition perform (c : Call) : M Response :=
  match c with
  | GetFileContent username password client_ip protocol =>
      get_file_content username password client_ip protocol
  | CheckMasterVersion username password client_ip =>
      check_master_version username password client_ip
  | ConfirmSync username password sync_id client_ip =>
      confirm_sync username password sync_id client_ip
  | AcknowledgeSync username password sync_id client_ip =>
      acknowledge_sync username password sync_id client_ip
  end.

(** The world after a sequence of calls. *)
Fixpoint run (calls : list Call) (w : World) : World :=
  match calls with
  | [] => w
  | c :: rest => run rest (snd (perform c w))
  end.

Definition credentials (c : Call) : string * string :=
  match c with
  | GetFileContent username password _ _ => (username, password)
  | CheckMasterVersion username password _ => (username, password)
  | ConfirmSync username password _ _ => (username, password)
  | AcknowledgeSync username password _ _ => (username, password)
  end.

Definition with_credentials (username password : string) (c : Call) : Call :=
  match c with
  | GetFileContent _ _ client_ip protocol => GetFileContent username password client_ip protocol
  | CheckMasterVersion _ _ client_ip => CheckMasterVersion username password client_ip
  | ConfirmSync _ _ sync_id client_ip => ConfirmSync username password sync_id client_ip
  | AcknowledgeSync _ _ sync_id client_ip => AcknowledgeSync username password sync_id client_ip
  end.

(** Whether the caller of [c] authenticates in [w]. *)
Definition authenticates (c : Call) (w : World) : bool :=
  verify_user (credentials c).1 (credentials c).2 (users_file w).

(** [uuid4] never delivers an identifier the ledger already holds:
    checked at every call of the sequence that draws one. *)
Fixpoint fresh_draws (calls : list Call) (w : World) : bool :=
  match calls with
  | [] => true
  | c :: rest =>
      match c with
      | GetFileContent _ _ _ _ => bool_decide (sync_records w !! uuids w (draws w) = None)
      | _ => true
      end && fresh_draws rest (snd (perform c w))
  end.

(** The flags of a record only go from false to true. *)
Definition flags_le (old new : SyncRecord) : Prop :=
  (confirmed old = true → confirmed new = true) ∧
  (acknowledged old = true → acknowledged new = true).

Definition ledger_le (old new : gmap string SyncRecord) : Prop :=
  ∀ id record, old !! id = Some record →
    ∃ record', new !! id = Some record' ∧ flags_le record record'.

(** The response of a handler that returned one. *)
Definition response_of {A : Type} (x : result A * World) : option A :=
  match x.1 with
  | Ok r => Some r
  | Raise _ => None
  end.

(** ** Vocabulary of the properties *)

(** The response of every handler to a caller who does not authenticate. *)
Definition authentication_failed (now : Z) : Response :=
  {| success := false; timestamp := now; data := None;
     error := Some "Authentication failed" |}.

(** The [sync_id] entry of the [data] of a response. *)
Definition sync_id_field (r : Response) : option value :=
  data r ≫= lookup "sync_id".

(** Whatever a call does to the ledger is one of: nothing; a new record,
    with both flags false, under the identifier [uuid4] delivers; the
    confirmation or the acknowledgment of a record that is there. *)
Inductive ledger_effect (w : World) : Call → gmap string SyncRecord → Prop :=
  | effect_none c : ledger_effect w c (sync_records w)
  | effect_open u p ip protocol record :
      protocol ∈ ["RR"; "RRA"] →
      confirmed record = false → acknowledged record = false →
      ledger_effect w (GetFileContent u p ip protocol)
        (<[uuids w (draws w) := record]> (sync_records w))
  | effect_confirm u p id ip record now :
      sync_records w !! id = Some record →
      ledger_effect w (ConfirmSync u p id ip)
        (<[id := mark_confirmed now record]> (sync_records w))
  | effect_acknowledge u p id ip record now :
      sync_records w !! id = Some record →
      ledger_effect w (AcknowledgeSync u p id ip)
        (<[id := mark_acknowledged now record]> (sync_records w)).

(** [uuid4] does not deliver [id] during the calls. *)
Fixpoint never_drawn (id : string) (calls : list Call) (w : World) : bool :=
  match calls with
  | [] => true
  | c :: rest =>
      match c with
      | GetFileContent _ _ _ _ => bool_decide (uuids w (draws w) ≠ id)
      | _ => true
      end && never_drawn id rest (snd (perform c w))
  end.

(** Every identifier in the ledger was delivered by [uuid4] earlier. *)
Definition drawn_before (w : World) : Prop :=
  ∀ id, is_Some (sync_records w !! id) → ∃ k, (k < draws w)%nat ∧ uuids w k = id.

(** The four remote operations of the interface. *)
Definition remote_operations : list string :=
  ["get_file_content"; "check_master_version"; "confirm_sync"; "acknowledge_sync"].

(** The methods of the dispatcher that have a parameter [client_ip], and
    so can be called through [handle_request]. *)
Definition dispatchable : list string :=
  remote_operations ++ ["authenticate"; "log_sync_attempt"; "handle_request"].

(** A request that [handle_request] turns down: a failure response, one
    line in the log, the ledger and the document as they were. *)
Definition refused (w : World) (x : result retval * World) : Prop :=
  ∃ r w' line, x = (Ok (RetResponse r), w') ∧
    success r = false ∧ data r = None ∧ is_Some (error r) ∧
    sync_records w' = sync_records w ∧
    master_file w' = master_file w ∧ master_mtime w' = master_mtime w ∧
    log_file w' = (log_file w ++ [line])%list.

(** ** A concrete server, for the examples *)

Module Sample.

Definition users : gmap string string :=
  <["alice" := "2bb80d537b1da3e38bd30361aa855686bde0eacd7162fef6a25fe97bf527a25b"]> ∅.

Definition ids (n : nat) : string :=
  nth n ["6fa459ea-ee8a-4ca4-894e-db77e160355e"; "16fd2706-8baf-433b-82eb-8c7fada847da";
         "7d444840-9dc0-11d1-b245-5ffdce74fad2"]
    "886313e1-3b8a-4372-9b90-0c9aee199e5d".

(** The master file holds [hello], alice's password is [secret], the
    ledger is empty, the clock reads 2000, 2001, ... *)
Definition server : World := {|
  sync_records := ∅;
  master_file := Some "hello";
  master_mtime := 1000;
  users_file := UsersTable users;
  log_file := [];
  io_error := None;
  clock := fun n => (2000 + Z.of_nat n)%Z;
  ticks := 0;
  uuids := ids;
  draws := 0
|}.

End Sample.

(** ** Scenarios on the sample server *)

(** The sample server after alice fetched the document under RR and
    confirmed the delivery once. *)
Definition confirmed_once : World :=
  run [GetFileContent "alice" "secret" "10.0.0.1" "RR";
       ConfirmSync "alice" "secret" "6fa459ea-ee8a-4ca4-894e-db77e160355e" "10.0.0.1"]
    Sample.server.

(** The second confirmation of the same delivery. *)
Definition confirmed_twice : result Response * World :=
  confirm_sync "alice" "secret" "6fa459ea-ee8a-4ca4-894e-db77e160355e" "10.0.0.1"
    confirmed_once.

(** What follows the first confirmation: bob's wrong password is refused,
    alice fetches under RRA, acknowledges that delivery, and confirms the
    first one again. *)
Definition later_calls : list Call :=
  [CheckMasterVersion "bob" "guess" "10.0.0.2";
   GetFileContent "alice" "secret" "10.0.0.1" "RRA";
   AcknowledgeSync "alice" "secret" "16fd2706-8baf-433b-82eb-8c7fada847da" "10.0.0.1";
   ConfirmSync "alice" "secret" "6fa459ea-ee8a-4ca4-894e-db77e160355e" "10.0.0.1"].

(** The sample server answers a request under protocol R. *)
Definition plain_request : result Response * World :=
  get_file_content "alice" "secret" "10.0.0.1" "R" Sample.server.




(** Two lines, with the line end of Unix and with the line end of DOS. *)
Definition unix_lines : string := "one" ++ newline ++ "two".

Definition dos_lines : string :=
  "one" ++ String (ascii_of_nat 13) EmptyString ++ newline ++ "two".


Definition credentials_only : gmap string string :=
  <["username" := "alice"]> (<["password" := "secret"]> ∅).

(** The document is delivered to alice under RR; after her confirmation
    the server rewrites it, and a second client polls the version. *)
Definition delivered : result Response * World :=
  get_file_content "alice" "secret" "10.0.0.1" "RR" Sample.server.

Definition rewritten : World := snd (update_content "world" confirmed_once).

Definition polled : result Response * World :=
  check_master_version "alice" "secret" "10.0.0.2" rewritten.

(** The entry [key] of the [data] of the response of a handler. *)
Definition data_field (key : string) (x : result Response * World) : option value :=
  match response_of x with
  | Some r => data r ≫= lookup key
  | None => None
  end.

(** ** Calls as [handle_request] carries them; the ledger and the log *)

(** The address a call comes from, and the method and the keyword
    parameters that carry it through [handle_request]. *)
Definition caller_ip (c : Call) : string :=
  match c with
  | GetFileContent _ _ client_ip _ => client_ip
  | CheckMasterVersion _ _ client_ip => client_ip
  | ConfirmSync _ _ _ client_ip => client_ip
  | AcknowledgeSync _ _ _ client_ip => client_ip
  end.

Definition method_of (c : Call) : string :=
  match c with
  | GetFileContent _ _ _ _ => "get_file_content"
  | CheckMasterVersion _ _ _ => "check_master_version"
  | ConfirmSync _ _ _ _ => "confirm_sync"
  | AcknowledgeSync _ _ _ _ => "acknowledge_sync"
  end.

Definition params_of (c : Call) : gmap string string :=
  match c with
  | GetFileContent username password _ protocol =>
      <["protocol" := protocol]> (<["username" := username]> (<["password" := password]> ∅))
  | CheckMasterVersion username password _ =>
      <["username" := username]> (<["password" := password]> ∅)
  | ConfirmSync username password sync_id _ =>
      <["sync_id" := sync_id]> (<["username" := username]> (<["password" := password]> ∅))
  | AcknowledgeSync username password sync_id _ =>
      <["sync_id" := sync_id]> (<["username" := username]> (<["password" := password]> ∅))
  end.

(** The keywords of a call fit a method: each of them, [client_ip]
    included, names a parameter of the method; [client_ip] is not given
    twice; and no parameter without a default is left out. *)
Definition keywords_fit (h : handler) (params : gmap string string) : Prop :=
  dom params ∪ {["client_ip"]} ⊆ list_to_set (required h ++ optional h) ∧
  ("client_ip" ∉ dom params) ∧
  list_to_set (required h) ⊆ dom params ∪ {["client_ip"]}.

(** The line [log_sync_attempt] writes, up to the operation it names. *)
Definition log_line (success : bool) (client_ip username operation : string) : string :=
  "SYNC " ++ (if success then "SUCCESS" else "FAILED") ++ " - IP: " ++ client_ip
  ++ " - User: " ++ username ++ " - Operation: " ++ operation.

(** The ledger is well formed: every record sits under its own sync id
    and carries a confirmation (acknowledgment) time exactly when its
    confirmed (acknowledged) flag is set. *)
Definition record_wf (id : string) (record : SyncRecord) : Prop :=
  sync_id record = id ∧
  (confirmed record = true ↔ is_Some (confirmation_time record)) ∧
  (acknowledged record = true ↔ is_Some (acknowledgment_time record)).

Definition ledger_wf (ledger : gmap string SyncRecord) : Prop :=
  ∀ id record, ledger !! id = Some record → record_wf id record.

(** Who asked for a delivery, from where and when. *)
Definition same_request (old new : SyncRecord) : Prop :=
  sync_id new = sync_id old ∧ client_ip new = client_ip old ∧
  username new = username old ∧ request_time new = request_time old.

(** The calls that open a record: deliveries under RR or RRA. *)
Definition opens (c : Call) : bool :=
  match c with
  | GetFileContent _ _ _ protocol => bool_decide (protocol ∈ ["RR"; "RRA"])
  | _ => false
  end.

Global Instance keywords_fit_dec h params : Decision (keywords_fit h params).
Proof. unfold keywords_fit. apply _. Defined.

(** ** common/auth.py and server/server_main.py: writing the users file *)

(** [add_user(username, password, users_file)], on what the users file
    holds; [writable] tells whether [os.makedirs] and
    [open(users_file, 'w')] succeed. A file that is missing or does not
    load counts as empty. The result is the value returned and the file
    afterwards. *)
Definition add_user (username password : string) (writable : bool) (file : UsersFile)
    : bool * UsersFile :=
  let users := match file with
               | UsersTable users => users
               | NoUsersFile | BadUsersFile => ∅
               end in
  let users := <[username := hash_password password]> users in
  if writable then (true, UsersTable users) else (false, file).

(** [create_default_users_file(users_file)]: [os.makedirs] is outside any
    [try] here, so its failure is an exception, while the value of
    [add_user] is dropped. *)
Definition create_default_users_file (can_mkdir writable : bool) (file : UsersFile)
    : result UsersFile :=
  match file with
  | NoUsersFile =>
      if can_mkdir then Ok (add_user "admin" "password" writable file).2
      else Raise (OSError "makedirs failed")
  | BadUsersFile | UsersTable _ => Ok file
  end.

(** ** base64 and UTF-8, as [create_auth_header] and [parse_auth_header] use them *)

Module Codec.
Local Open Scope Z_scope.

Definition string_of_bytes (bs : list Z) : string :=
  string_of_list_ascii (map (fun b => ascii_of_N (Z.to_N b)) bs).

(** The character of a 6-bit value in the alphabet A-Z a-z 0-9 + /, and
    the value of a character of the alphabet. *)
Definition b64_char (v : Z) : Z :=
  if v <? 26 then v + 65
  else if v <? 52 then v + 71
  else if v <? 62 then v - 4
  else if v =? 62 then 43
  else 47.

Definition b64_value (c : Z) : option Z :=
  if (65 <=? c) && (c <=? 90) then Some (c - 65)
  else if (97 <=? c) && (c <=? 122) then Some (c - 71)
  else if (48 <=? c) && (c <=? 57) then Some (c + 4)
  else if c =? 43 then Some 62
  else if c =? 47 then Some 63
  else None.

(** [base64.b64encode]: three bytes give four characters, and a last
    group of one or two bytes is padded with [=] (61). *)
Fixpoint b64encode (bs : list Z) : list Z :=
  match bs with
  | [] => []
  | [b1] => [b64_char (b1 / 4); b64_char (b1 mod 4 * 16); 61; 61]
  | [b1; b2] =>
      [b64_char (b1 / 4); b64_char (b1 mod 4 * 16 + b2 / 16); b64_char (b2 mod 16 * 4); 61]
  | b1 :: b2 :: b3 :: rest =>
      b64_char (b1 / 4) :: b64_char (b1 mod 4 * 16 + b2 / 16)
      :: b64_char (b2 mod 16 * 4 + b3 / 64) :: b64_char (b3 mod 64) :: b64encode rest
  end.

(** [binascii.a2b_base64] as [base64.b64decode] calls it (not strict):
    characters outside the alphabet are skipped, a pad that completes a
    group ends the decoding, and a group left open at the end is an
    error. [quad_pos] counts the characters of the group at hand,
    [leftchar] holds their bits not yet written out, [pads] the pads seen
    since the last character, [out] the bytes so far, last first. *)
Fixpoint a2b_base64 (chars : list Z) (quad_pos leftchar pads : Z) (out : list Z)
    : option (list Z) :=
  match chars with
  | [] => if quad_pos =? 0 then Some (rev out) else None
  | c :: rest =>
      if c =? 61 then
        if (2 <=? quad_pos) && (4 <=? quad_pos + (pads + 1)) then Some (rev out)
        else a2b_base64 rest quad_pos leftchar (if 2 <=? quad_pos then pads + 1 else pads) out
      else
        match b64_value c with
        | None => a2b_base64 rest quad_pos leftchar pads out
        | Some v =>
            if quad_pos =? 0 then a2b_base64 rest 1 v 0 out
            else if quad_pos =? 1
            then a2b_base64 rest 2 (v mod 16) 0 (leftchar * 4 + v / 16 :: out)
            else if quad_pos =? 2
            then a2b_base64 rest 3 (v mod 4) 0 (leftchar * 16 + v / 4 :: out)
            else a2b_base64 rest 0 0 0 (leftchar * 64 + v :: out)
        end
  end.

(** [base64.b64decode(s)] on a [str]: the string must be ASCII. *)
Definition b64decode (s : list Z) : option (list Z) :=
  if forallb (fun c => c <? 128) s then a2b_base64 s 0 0 0 [] else None.

(** Whether [bytes.decode()] accepts the bytes: well-formed UTF-8, with
    no overlong form, no surrogate and nothing above U+10FFFF. *)
Definition continuation (b : Z) : bool := (0x80 <=? b) && (b <=? 0xBF).

Definition second_of_three (b0 b1 : Z) : bool :=
  if b0 =? 0xE0 then (0xA0 <=? b1) && (b1 <=? 0xBF)
  else if b0 =? 0xED then (0x80 <=? b1) && (b1 <=? 0x9F)
  else continuation b1.

Definition second_of_four (b0 b1 : Z) : bool :=
  if b0 =? 0xF0 then (0x90 <=? b1) && (b1 <=? 0xBF)
  else if b0 =? 0xF4 then (0x80 <=? b1) && (b1 <=? 0x8F)
  else continuation b1.

Fixpoint utf8_valid (bs : list Z) : bool :=
  match bs with
  | [] => true
  | b0 :: r0 =>
      if b0 <? 0x80 then utf8_valid r0
      else if (0xC2 <=? b0) && (b0 <=? 0xDF) then
        match r0 with
        | b1 :: r1 => continuation b1 && utf8_valid r1
        | _ => false
        end
      else if (0xE0 <=? b0) && (b0 <=? 0xEF) then
        match r0 with
        | b1 :: b2 :: r2 => second_of_three b0 b1 && continuation b2 && utf8_valid r2
        | _ => false
        end
      else if (0xF0 <=? b0) && (b0 <=? 0xF4) then
        match r0 with
        | b1 :: b2 :: b3 :: r3 =>
            second_of_four b0 b1 && continuation b2 && continuation b3 && utf8_valid r3
        | _ => false
        end
      else false
  end.

Definition byte_range (bs : list Z) : Prop := Forall (fun b => 0 <= b < 256) bs.

End Codec.

(** A Python [str]: its bytes are well-formed UTF-8. *)
Definition is_str (s : string) : Prop :=
  Codec.utf8_valid (Hashlib.bytes_of_string s) = true.

(** [s.split(":", 1)] when it gives two parts: around the first colon. *)
Fixpoint split_colon (s : string) : option (string * string) :=
  match s with
  | EmptyString => None
  | String c rest =>
      if Ascii.eqb c ":" then Some (EmptyString, rest)
      else match split_colon rest with
           | Some (before, after) => Some (String c before, after)
           | None => None
           end
  end.

(** [s[n:]] *)
Fixpoint drop_chars (n : nat) (s : string) : string :=
  match n, s with
  | S k, String _ rest => drop_chars k rest
  | _, _ => s
  end.

(** ** common/auth.py: the Authorization header *)

(** [create_auth_header(username, password)] *)
Definition create_auth_header (username password : string) : string :=
  let credentials := username ++ ":" ++ password in
  let encoded := Codec.string_of_bytes (Codec.b64encode (Hashlib.bytes_of_string credentials)) in
  "Basic " ++ encoded.

(** [parse_auth_header(auth_header)]: whatever is raised inside the [try]
    (by [b64decode], by [decode] or by unpacking a split without colon)
    gives the empty pair. *)
Definition parse_auth_header (auth_header : string) : string * string :=
  if negb (truthy auth_header) || negb (String.prefix "Basic " auth_header)
  then (EmptyString, EmptyString)
  else
    let encoded := drop_chars 6 auth_header in
    match Codec.b64decode (Hashlib.bytes_of_string encoded) with
    | None => (EmptyString, EmptyString)
    | Some bytes =>
        if Codec.utf8_valid bytes then
          match split_colon (Codec.string_of_bytes bytes) with
          | Some (username, password) => (username, password)
          | None => (EmptyString, EmptyString)
          end
        else (EmptyString, EmptyString)
    end.

(** ** common/protocol.py: the messages of the client *)

(** [create_confirmation(sync_id)] and [create_acknowledgment(sync_id)],
    on the clock of whoever composes them. *)
Definition create_confirmation (sync_id : string) : M (gmap string value) :=
  now ← time_time;
  mret (<["timestamp" := VNum now]>
          (<["sync_id" := VStr sync_id]> (<["confirmation" := VBool true]> ∅))).

Definition create_acknowledgment (sync_id : string) : M (gmap string value) :=
  now ← time_time;
  mret (<["timestamp" := VNum now]>
          (<["sync_id" := VStr sync_id]> (<["acknowledgment" := VBool true]> ∅))).

(** ** server/threads.py: the request handler *)

(** A request as [RequestHandler] has it once the standard library has
    read it: [url_path] is [urlparse(self.path).path], [query_params] and
    [request_data] are what [_parse_query_params()] and
    [_parse_request_data()] return, [authorization] is
    the Authorization header (empty when there is none) and [remote_ip] what
    [_get_client_ip()] returns. *)
Record Request := {
  url_path : string;
  query_params : gmap string string;
  request_data : gmap string string;
  authorization : string;
  remote_ip : string
}.

(** What is written back: the status and the body before [json.dumps],
    either a response of the dispatcher or a bare failure. *)
Inductive Body :=
  | Dumps (response : Response)
  | Failure (message : string).

Record HttpResponse := { status_code : Z; body : Body }.

(** [s.endswith("/")] and [s[:-1]] *)
Fixpoint endswith_slash (s : string) : bool :=
  match s with
  | EmptyString => false
  | String c EmptyString => Ascii.eqb c "/"
  | String _ rest => endswith_slash rest
  end.

Fixpoint drop_last (s : string) : string :=
  match s with
  | EmptyString => EmptyString
  | String _ EmptyString => EmptyString
  | String c rest => String c (drop_last rest)
  end.

Definition _get_auth_credentials (req : Request) : string * string :=
  parse_auth_header (authorization req).

Definition _get_endpoint_and_method (req : Request) : string * option string :=
  let endpoint := url_path req in
  let endpoint := if endswith_slash endpoint then drop_last endpoint else endpoint in
  (endpoint, ENDPOINTS !! endpoint).

(** The dispatcher of the class is [None] until a server is created. *)
Definition _handle_request (method_name : string) (params : gmap string string)
    (req : Request) (dispatcher : option World) : result HttpResponse * option World :=
  match dispatcher with
  | None =>
      (Ok {| status_code := 500; body := Failure "Server dispatcher not initialized" |}, None)
  | Some w =>
      let client_ip := remote_ip req in
      let '(username, password) := _get_auth_credentials req in
      let params := <["password" := password]> (<["username" := username]> params) in
      match handle_request method_name params client_ip w with
      | (Ok (RetResponse result), w') =>
          (Ok {| status_code := if success result then 200 else 400; body := Dumps result |},
           Some w')
      | (Ok (RetBool _), w') =>
          (Raise (AttributeError "'bool' object has no attribute 'get'"), Some w')
      | (Ok RetNone, w') =>
          (Raise (AttributeError "'NoneType' object has no attribute 'get'"), Some w')
      | (Raise e, w') => (Raise e, Some w')
      end
  end.

Definition do_GET (req : Request) (dispatcher : option World)
    : result HttpResponse * option World :=
  let '(endpoint, method_name) := _get_endpoint_and_method req in
  match method_name with
  | Some method_name =>
      if negb (truthy method_name)
      then (Ok {| status_code := 404; body := Failure ("Unknown endpoint: " ++ endpoint) |},
            dispatcher)
      else
        let params := query_params req in
        _handle_request method_name params req dispatcher
  | None =>
      (Ok {| status_code := 404; body := Failure ("Unknown endpoint: " ++ endpoint) |},
       dispatcher)
  end.

Definition do_POST (req : Request) (dispatcher : option World)
    : result HttpResponse * option World :=
  let '(endpoint, method_name) := _get_endpoint_and_method req in
  match method_name with
  | Some method_name =>
      if negb (truthy method_name)
      then (Ok {| status_code := 404; body := Failure ("Unknown endpoint: " ++ endpoint) |},
            dispatcher)
      else
        let params := request_data req in
        _handle_request method_name params req dispatcher
  | None =>
      (Ok {| status_code := 404; body := Failure ("Unknown endpoint: " ++ endpoint) |},
       dispatcher)
  end.

(** The shape [do_GET] and [do_POST] share, over where the parameters
    are taken from. *)
Definition respond (params : Request → gmap string string) (req : Request)
    (dispatcher : option World) : result HttpResponse * option World :=
  let '(endpoint, method_name) := _get_endpoint_and_method req in
  match method_name with
  | Some method_name =>
      if negb (truthy method_name)
      then (Ok {| status_code := 404; body := Failure ("Unknown endpoint: " ++ endpoint) |},
            dispatcher)
      else _handle_request method_name (params req) req dispatcher
  | None =>
      (Ok {| status_code := 404; body := Failure ("Unknown endpoint: " ++ endpoint) |},
       dispatcher)
  end.

(** The path of a call and its parameters apart from the credentials. *)
Definition endpoint_of (c : Call) : string :=
  match c with
  | GetFileContent _ _ _ _ => "/file/content"
  | CheckMasterVersion _ _ _ => "/file/version"
  | ConfirmSync _ _ _ _ => "/sync/confirm"
  | AcknowledgeSync _ _ _ _ => "/sync/acknowledge"
  end.

Definition arguments_of (c : Call) : gmap string string :=
  match c with
  | GetFileContent _ _ _ protocol => {["protocol" := protocol]}
  | CheckMasterVersion _ _ _ => ∅
  | ConfirmSync _ _ sync_id _ => {["sync_id" := sync_id]}
  | AcknowledgeSync _ _ sync_id _ => {["sync_id" := sync_id]}
  end.

(** ** Scenarios of the HTTP layer *)

(** The sample server with the delivery to alice under RR still open. *)
Definition open_delivery : World :=
  run [GetFileContent "alice" "secret" "10.0.0.1" "RR"] Sample.server.

(** The record of that delivery. *)
Definition open_record : SyncRecord :=
  {| sync_id := "6fa459ea-ee8a-4ca4-894e-db77e160355e"; client_ip := "10.0.0.1";
     username := "alice"; request_time := 2000; confirmed := false; acknowledged := false;
     confirmation_time := None; acknowledgment_time := None |}.

(** The confirmation of that delivery as the client composes it, and the
    request that carries it. *)
Definition confirmation_message : gmap string value :=
  <["timestamp" := VNum 2000]>
    (<["sync_id" := VStr "6fa459ea-ee8a-4ca4-894e-db77e160355e"]>
       (<["confirmation" := VBool true]> ∅)).

Definition confirmation_request : Request := {|
  url_path := "/sync/confirm";
  query_params := ∅;
  request_data :=
    <["timestamp" := "2000"]>
      (<["sync_id" := "6fa459ea-ee8a-4ca4-894e-db77e160355e"]>
         (<["confirmation" := "true"]> ∅));
  authorization := "Basic YWxpY2U6c2VjcmV0";
  remote_ip := "10.0.0.1"
|}.

(** A request for the document under RRA. *)
Definition content_request : Request := {|
  url_path := "/file/content";
  query_params := {["protocol" := "RRA"]};
  request_data := ∅;
  authorization := "Basic YWxpY2U6c2VjcmV0";
  remote_ip := "10.0.0.1"
|}.

(** Parameters that name something [confirm_sync] has no parameter for. *)
Definition stray_params : gmap string string :=
  <["confirmation" := "true"]> credentials_only.

(** The server with the delivery open, after [add_user] gave bob an
    account. *)
Definition shared_server : World := {|
  sync_records := sync_records open_delivery;
  master_file := master_file open_delivery;
  master_mtime := master_mtime open_delivery;
  users_file := (add_user "bob" "builder" true (users_file open_delivery)).2;
  log_file := log_file open_delivery;
  io_error := io_error open_delivery;
  clock := clock open_delivery;
  ticks := ticks open_delivery;
  uuids := uuids open_delivery;
  draws := draws open_delivery
|}.

(** * Properties *)

(** ** hashlib on known inputs *)

(** Digests of known inputs, as [hashlib] returns them. *)
Example md5_hexdigest_empty :
  Hashlib.md5_hexdigest EmptyString = "d41d8cd98f00b204e9800998ecf8427e".
Proof. vm_compute. reflexivity. Qed.

Example md5_hexdigest_hello :
  Hashlib.md5_hexdigest "hello" = "5d41402abc4b2a76b9719d911017c592".
Proof. vm_compute. reflexivity. Qed.

Example sha256_constants :
  length Hashlib.sha256_K = 64 ∧
  nth 0 Hashlib.sha256_K 0%Z = 0x428a2f98%Z ∧ nth 63 Hashlib.sha256_K 0%Z = 0xc67178f2%Z ∧
  nth 0 Hashlib.sha256_init 0%Z = 0x6a09e667%Z ∧ nth 7 Hashlib.sha256_init 0%Z = 0x5be0cd19%Z.
Proof. vm_compute. split_and!; reflexivity. Qed.

Example sha256_hexdigest_abc :
  Hashlib.sha256_hexdigest "abc"
  = "ba7816bf8f01cfea414140de5dae2223b00361a396177a9cb410ff61f20015ad".
Proof. vm_compute. reflexivity. Qed.

Example sha256_hexdigest_secret :
  Hashlib.sha256_hexdigest "secret"
  = "2bb80d537b1da3e38bd30361aa855686bde0eacd7162fef6a25fe97bf527a25b".
Proof. vm_compute. reflexivity. Qed.

(** ** Running the handlers *)

Ltac step_m :=
  repeat progress
    (unfold mbind, M_bind, mret, M_ret, gets, modify, raise, try_except, time_time, uuid4,
       logging_info, log_sync_attempt, create_response, create_sync_response,
       SyncRecord_init; cbn).

(** [authenticate] returns what [verify_user] says, and writes one line
    to the log when it says no. *)
Lemma authenticate_eq u p ip w :
  ∃ line, authenticate u p ip w =
    if verify_user u p (users_file w) then (Ok true, w) else (Ok false, with_log line w).
Proof.
  unfold authenticate. step_m.
  destruct (verify_user u p (users_file w)); cbn; eauto.
Qed.

Lemma perform_unauthenticated c w :
  authenticates c w = false →
  ∃ line, perform c w
          = (Ok (authentication_failed (clock w (ticks w))), with_tick (with_log line w)).
Proof.
  unfold authenticates. intros Hno.
  destruct c as [u p ip protocol|u p ip|u p id ip|u p id ip]; cbn in Hno |- *.
  all: unfold get_file_content, check_master_version, confirm_sync, acknowledge_sync.
  all: unfold mbind at 1, M_bind at 1.
  all: destruct (authenticate_eq u p ip w) as [line ->]; rewrite Hno; cbn.
  all: exists line; reflexivity.
Qed.

(** [get_file_status] succeeds exactly when the disk works; it creates the
    master file when there is none, and touches nothing else. *)
Lemma get_file_status_eq w :
  ∃ r w', get_file_status w = (r, w') ∧ sync_records w' = sync_records w ∧
    uuids w' = uuids w ∧ draws w' = draws w ∧ users_file w' = users_file w ∧
    match r with
    | Ok st => io_error w = None ∧
               master_file w' = Some (content st) ∧
               version st = Hashlib.md5_hexdigest (content st) ∧
               (∀ c, master_file w = Some c → content st = c)
    | Raise e => io_error w = Some (str_exn e)
    end.
Proof.
  unfold get_file_status, get_content, get_last_modified, master_exists, _ensure_file_exists,
    write_master, open_master.
  step_m.
  destruct (master_file w) as [c|] eqn:Hm, (io_error w) as [msg|] eqn:Hio; cbn;
    rewrite ?Hm, ?Hio; cbn; rewrite ?Hm, ?Hio; cbn.
  all: eexists _, _; split; [reflexivity|]; cbn; repeat split; eauto; congruence.
Qed.

Lemma get_file_content_eq u p ip protocol w :
  verify_user u p (users_file w) = true →
  ∃ r w', get_file_content u p ip protocol w = (Ok r, w') ∧
    uuids w' = uuids w ∧
    draws w' = (if bool_decide (io_error w = None) then S (draws w) else draws w) ∧
    match io_error w with
    | None =>
        success r = true ∧ error r = None ∧
        (∃ d, data r = Some d ∧ d !! "sync_id" = Some (VStr (uuids w (draws w)))) ∧
        if bool_decide (protocol ∈ ["RR"; "RRA"])
        then ∃ record, sync_records w' = <[uuids w (draws w) := record]> (sync_records w) ∧
               sync_id record = uuids w (draws w) ∧
               confirmed record = false ∧ acknowledged record = false
        else sync_records w' = sync_records w
    | Some msg =>
        success r = false ∧ data r = None ∧
        error r = Some ("Error getting file content: " ++ msg) ∧
        sync_records w' = sync_records w
    end.
Proof.
  intros Hauth. unfold get_file_content. unfold mbind at 1, M_bind at 1.
  destruct (authenticate_eq u p ip w) as [line ->]; rewrite Hauth; cbn.
  unfold try_except. unfold mbind at 1, M_bind at 1.
  destruct (get_file_status_eq w) as (r & w' & -> & Hl & Hu & Hd & Hf & Hr).
  destruct r as [st|e]; cbn.
  - destruct Hr as (-> & _). step_m. rewrite Hu, Hd.
    case_bool_decide; cbn; eexists _, _; (split; [reflexivity|]); cbn;
      rewrite ?Hl, ?Hu, ?Hd; repeat split; eauto.
  - rewrite Hr. step_m. eexists _, _; split; [reflexivity|]; cbn. by rewrite Hl, Hu, Hd.
Qed.

Lemma check_master_version_frame u p ip w :
  sync_records (snd (check_master_version u p ip w)) = sync_records w ∧
  uuids (snd (check_master_version u p ip w)) = uuids w ∧
  draws (snd (check_master_version u p ip w)) = draws w.
Proof.
  destruct (check_master_version u p ip w) as [r w'] eqn:Hrun. cbn. revert Hrun.
  unfold check_master_version. unfold mbind at 1, M_bind at 1.
  destruct (authenticate_eq u p ip w) as [line ->].
  destruct (verify_user u p (users_file w)); cbn; [|by intros [= <- <-]].
  unfold get_version, get_content, get_last_modified, master_exists, _ensure_file_exists,
    write_master, open_master.
  step_m.
  destruct (master_file w) as [c|] eqn:Hm, (io_error w) as [msg|] eqn:Hio; cbn;
    rewrite ?Hm, ?Hio; cbn; rewrite ?Hm, ?Hio; cbn; by intros [= <- <-].
Qed.

Lemma confirm_sync_eq u p id ip w :
  verify_user u p (users_file w) = true →
  ∃ r w', confirm_sync u p id ip w = (Ok r, w') ∧
    uuids w' = uuids w ∧ draws w' = draws w ∧
    match sync_records w !! id with
    | Some record =>
        success r = true ∧ error r = None ∧
        data r = Some (<["confirmed" := VBool true]> (<["sync_id" := VStr id]> ∅)) ∧
        sync_records w' = <[id := mark_confirmed (clock w (ticks w)) record]> (sync_records w)
    | None =>
        success r = false ∧ data r = None ∧
        error r = Some ("Unknown sync ID: " ++ id) ∧
        sync_records w' = sync_records w
    end.
Proof.
  intros Hauth. unfold confirm_sync. unfold mbind at 1, M_bind at 1.
  destruct (authenticate_eq u p ip w) as [line ->]; rewrite Hauth; cbn.
  step_m. destruct (sync_records w !! id) as [record|]; cbn; eauto 10.
Qed.

Lemma acknowledge_sync_eq u p id ip w :
  verify_user u p (users_file w) = true →
  ∃ r w', acknowledge_sync u p id ip w = (Ok r, w') ∧
    uuids w' = uuids w ∧ draws w' = draws w ∧
    match sync_records w !! id with
    | Some record =>
        success r = true ∧ error r = None ∧
        data r = Some (<["acknowledged" := VBool true]> (<["sync_id" := VStr id]> ∅)) ∧
        sync_records w' = <[id := mark_acknowledged (clock w (ticks w)) record]> (sync_records w)
    | None =>
        success r = false ∧ data r = None ∧
        error r = Some ("Unknown sync ID: " ++ id) ∧
        sync_records w' = sync_records w
    end.
Proof.
  intros Hauth. unfold acknowledge_sync. unfold mbind at 1, M_bind at 1.
  destruct (authenticate_eq u p ip w) as [line ->]; rewrite Hauth; cbn.
  step_m. destruct (sync_records w !! id) as [record|]; cbn; eauto 10.
Qed.

(** ** Authentication failures *)

(** Without an [Authorization] header the HTTP layer passes empty
    credentials, which the sample server refuses like any other. *)
Example empty_credentials_refused :
  authenticates (CheckMasterVersion EmptyString EmptyString "10.0.0.1") Sample.server = false.
Proof. vm_compute. reflexivity. Qed.

(** C5. A call of any of the four remote operations whose caller does not
    authenticate (wrong password, unknown user, or the empty credentials
    an absent header is read as, whenever [verify_user] refuses them) is
    answered by a failure response with the error "Authentication failed",
    and changes neither the sync ledger nor the document store (content
    and modification time) nor the users file; all it leaves behind is
    one line in the audit log. *)
Theorem auth_failure_changes_nothing c w :
  authenticates c w = false →
  ∃ r w', perform c w = (Ok r, w') ∧
    success r = false ∧ error r = Some "Authentication failed" ∧ data r = None ∧
    sync_records w' = sync_records w ∧
    master_file w' = master_file w ∧ master_mtime w' = master_mtime w ∧
    users_file w' = users_file w ∧
    ∃ line, log_file w' = (log_file w ++ [line])%list.
Proof.
  intros Hno. destruct (perform_unauthenticated c w Hno) as [line ->].
  eexists _, _. split; [reflexivity|]. cbn. split_and!; try reflexivity. by exists line.
Qed.

Lemma auth_failure_changes_nothing_witness :
  authenticates (ConfirmSync "alice" "wrong" "6fa459ea-ee8a-4ca4-894e-db77e160355e" "10.0.0.1")
    Sample.server = false ∧
  ∃ r w', perform (ConfirmSync "alice" "wrong" "6fa459ea-ee8a-4ca4-894e-db77e160355e" "10.0.0.1")
            Sample.server = (Ok r, w') ∧
    success r = false ∧ error r = Some "Authentication failed" ∧
    sync_records w' = sync_records Sample.server ∧
    master_file w' = master_file Sample.server.
Proof.
  assert (Hno : authenticates
                  (ConfirmSync "alice" "wrong" "6fa459ea-ee8a-4ca4-894e-db77e160355e" "10.0.0.1")
                  Sample.server = false) by (vm_compute; reflexivity).
  split; [exact Hno|].
  destruct (auth_failure_changes_nothing _ _ Hno) as (r & w' & Hrun & Hs & He & _ & Hl & Hm & _).
  exists r, w'. split_and!; assumption.
Defined.

(** C9. For any of the four operations, a call with a wrong password for
    an existing user and a call with any password for a user that does not
    exist are answered alike: both responses are failures carrying the
    error text "Authentication failed", and from the same state of the
    server the two responses are equal in every field. *)
Theorem auth_failure_indistinguishable c w users u1 p1 u2 p2 stored :
  users_file w = UsersTable users →
  users !! u1 = Some stored → stored ≠ hash_password p1 →
  users !! u2 = None →
  ∃ r1 w1 r2 w2,
    perform (with_credentials u1 p1 c) w = (Ok r1, w1) ∧
    perform (with_credentials u2 p2 c) w = (Ok r2, w2) ∧
    success r1 = false ∧ error r1 = Some "Authentication failed" ∧
    error r2 = Some "Authentication failed" ∧ r1 = r2.
Proof.
  intros Hfile Hknown Hwrong Hunknown.
  assert (H1 : authenticates (with_credentials u1 p1 c) w = false).
  { unfold authenticates. destruct c; cbn; rewrite Hfile; cbn; rewrite Hknown;
      by apply bool_decide_eq_false. }
  assert (H2 : authenticates (with_credentials u2 p2 c) w = false).
  { unfold authenticates. destruct c; cbn; rewrite Hfile; cbn; by rewrite Hunknown. }
  destruct (perform_unauthenticated _ w H1) as [line1 ->].
  destruct (perform_unauthenticated _ w H2) as [line2 ->].
  eexists _, _, _, _. repeat split.
Qed.

Lemma auth_failure_indistinguishable_witness :
  ∃ r1 w1 r2 w2,
    perform (GetFileContent "alice" "wrong" "10.0.0.1" "RR") Sample.server = (Ok r1, w1) ∧
    perform (GetFileContent "mallory" "secret" "10.0.0.1" "RR") Sample.server = (Ok r2, w2) ∧
    success r1 = false ∧ error r1 = Some "Authentication failed" ∧
    error r2 = Some "Authentication failed" ∧ r1 = r2.
Proof.
  apply (auth_failure_indistinguishable (GetFileContent "any" "any" "10.0.0.1" "RR")
           Sample.server Sample.users "alice" "wrong" "mallory" "secret"
           "2bb80d537b1da3e38bd30361aa855686bde0eacd7162fef6a25fe97bf527a25b").
  - reflexivity.
  - vm_compute. reflexivity.
  - vm_compute. discriminate.
  - vm_compute. reflexivity.
Defined.

(** ** Confirmation and acknowledgment *)

(** C6. For a sync id that is not in the ledger, an authenticated
    [confirm_sync] and an authenticated [acknowledge_sync] both answer
    with a failure response whose error is "Unknown sync ID: " followed by
    the id, and leave the ledger as it was. *)
Theorem unknown_sync_id_rejected u p id ip w :
  verify_user u p (users_file w) = true →
  sync_records w !! id = None →
  (∃ r w', confirm_sync u p id ip w = (Ok r, w') ∧
     success r = false ∧ error r = Some ("Unknown sync ID: " ++ id) ∧
     sync_records w' = sync_records w) ∧
  (∃ r w', acknowledge_sync u p id ip w = (Ok r, w') ∧
     success r = false ∧ error r = Some ("Unknown sync ID: " ++ id) ∧
     sync_records w' = sync_records w).
Proof.
  intros Hauth Hnew. split.
  - destruct (confirm_sync_eq u p id ip w Hauth) as (r & w' & Hrun & _ & _ & Hcase).
    rewrite Hnew in Hcase. destruct Hcase as (? & ? & ? & ?). eauto 10.
  - destruct (acknowledge_sync_eq u p id ip w Hauth) as (r & w' & Hrun & _ & _ & Hcase).
    rewrite Hnew in Hcase. destruct Hcase as (? & ? & ? & ?). eauto 10.
Qed.

Lemma unknown_sync_id_rejected_witness :
  (∃ r w', confirm_sync "alice" "secret" "16fd2706-8baf-433b-82eb-8c7fada847da" "10.0.0.1"
             Sample.server = (Ok r, w') ∧
     success r = false ∧
     error r = Some ("Unknown sync ID: " ++ "16fd2706-8baf-433b-82eb-8c7fada847da") ∧
     sync_records w' = sync_records Sample.server) ∧
  (∃ r w', acknowledge_sync "alice" "secret" "16fd2706-8baf-433b-82eb-8c7fada847da" "10.0.0.1"
             Sample.server = (Ok r, w') ∧
     success r = false ∧
     error r = Some ("Unknown sync ID: " ++ "16fd2706-8baf-433b-82eb-8c7fada847da") ∧
     sync_records w' = sync_records Sample.server).
Proof.
  apply (unknown_sync_id_rejected "alice" "secret" "16fd2706-8baf-433b-82eb-8c7fada847da"
           "10.0.0.1" Sample.server).
  - vm_compute. reflexivity.
  - vm_compute. reflexivity.
Defined.

(** C2 fails as stated: the record is confirmed at time 2003; a second
    [confirm_sync] succeeds and keeps the flag, but stamps the record with
    its own time, 2005, in place of the first. *)
Lemma second_confirmation_restamps :
  (confirmed <$> sync_records confirmed_once !! "6fa459ea-ee8a-4ca4-894e-db77e160355e")
    = Some true ∧
  (confirmation_time <$> sync_records confirmed_once !! "6fa459ea-ee8a-4ca4-894e-db77e160355e")
    = Some (Some 2003%Z) ∧
  (success <$> response_of confirmed_twice) = Some true ∧
  (confirmed <$> sync_records (snd confirmed_twice) !! "6fa459ea-ee8a-4ca4-894e-db77e160355e")
    = Some true ∧
  (confirmation_time <$>
     sync_records (snd confirmed_twice) !! "6fa459ea-ee8a-4ca4-894e-db77e160355e")
    = Some (Some 2005%Z).
Proof.
  vm_compute. split_and!; reflexivity.
Qed.

(** C2 (as amended). For a sync operation already opened and confirmed, an
    authenticated [confirm_sync] on it succeeds again without error and
    the confirmed flag stays true; the confirmation time is overwritten by
    the time of this later call, every other field of the record (the
    acknowledgment and its time, the request time, the sync id, the
    address and the user name) and every other record are unchanged. *)
Theorem confirm_sync_again u p id ip w record :
  verify_user u p (users_file w) = true →
  sync_records w !! id = Some record →
  confirmed record = true →
  ∃ r w' record',
    confirm_sync u p id ip w = (Ok r, w') ∧ success r = true ∧ error r = None ∧
    sync_records w' !! id = Some record' ∧
    confirmed record' = true ∧
    confirmation_time record' = Some (clock w (ticks w)) ∧
    acknowledged record' = acknowledged record ∧
    acknowledgment_time record' = acknowledgment_time record ∧
    request_time record' = request_time record ∧
    sync_id record' = sync_id record ∧
    client_ip record' = client_ip record ∧
    username record' = username record ∧
    (∀ other, other ≠ id → sync_records w' !! other = sync_records w !! other).
Proof.
  intros Hauth Hknown Hconfirmed.
  destruct (confirm_sync_eq u p id ip w Hauth) as (r & w' & Hrun & _ & _ & Hcase).
  rewrite Hknown in Hcase. destruct Hcase as (Hs & He & _ & Hl).
  exists r, w', (mark_confirmed (clock w (ticks w)) record).
  rewrite Hl, lookup_insert_eq. repeat split; try assumption.
  intros other Hother. by rewrite lookup_insert_ne.
Qed.

Lemma confirm_sync_again_witness :
  ∃ r w' record',
    confirm_sync "alice" "secret" "6fa459ea-ee8a-4ca4-894e-db77e160355e" "10.0.0.1"
      confirmed_once = (Ok r, w') ∧ success r = true ∧
    sync_records w' !! "6fa459ea-ee8a-4ca4-894e-db77e160355e" = Some record' ∧
    confirmed record' = true ∧
    confirmation_time record' = Some (clock confirmed_once (ticks confirmed_once)) ∧
    sync_id record' = "6fa459ea-ee8a-4ca4-894e-db77e160355e" ∧
    client_ip record' = "10.0.0.1" ∧ username record' = "alice" ∧
    request_time record' = 2000%Z.
Proof.
  destruct (confirm_sync_again "alice" "secret" "6fa459ea-ee8a-4ca4-894e-db77e160355e"
              "10.0.0.1" confirmed_once
              (mark_confirmed 2003 (Build_SyncRecord "6fa459ea-ee8a-4ca4-894e-db77e160355e"
                                      "10.0.0.1" "alice" 2000 false false None None)))
    as (r & w' & record' & Hrun & Hs & _ & Hl & Hc & Ht & _ & _ & Hr & Hid & Hip & Hu & _).
  - vm_compute. reflexivity.
  - vm_compute. reflexivity.
  - reflexivity.
  - exists r, w', record'. split_and!; assumption.
Defined.

(** ** The effect of a call on the ledger *)

Lemma perform_effect c w : ledger_effect w c (sync_records (snd (perform c w))).
Proof.
  destruct (authenticates c w) eqn:Hauth.
  2: { destruct (perform_unauthenticated c w Hauth) as [line ->]. cbn. constructor. }
  unfold authenticates in Hauth.
  destruct c as [u p ip protocol|u p ip|u p id ip|u p id ip]; cbn in Hauth |- *.
  - destruct (get_file_content_eq u p ip protocol w Hauth) as (r & w' & -> & _ & _ & Hcase).
    cbn. destruct (io_error w).
    + destruct Hcase as (_ & _ & _ & ->). constructor.
    + destruct Hcase as (_ & _ & _ & Hledger). case_bool_decide.
      * destruct Hledger as (record & -> & _ & ? & ?). by constructor.
      * rewrite Hledger. constructor.
  - rewrite (proj1 (check_master_version_frame u p ip w)). constructor.
  - destruct (confirm_sync_eq u p id ip w Hauth) as (r & w' & -> & _ & _ & Hcase).
    cbn. destruct (sync_records w !! id) as [record|] eqn:Hid.
    + destruct Hcase as (_ & _ & _ & ->). by constructor.
    + destruct Hcase as (_ & _ & _ & ->). constructor.
  - destruct (acknowledge_sync_eq u p id ip w Hauth) as (r & w' & -> & _ & _ & Hcase).
    cbn. destruct (sync_records w !! id) as [record|] eqn:Hid.
    + destruct Hcase as (_ & _ & _ & ->). by constructor.
    + destruct Hcase as (_ & _ & _ & ->). constructor.
Qed.

Global Instance flags_le_preorder : PreOrder flags_le.
Proof.
  split.
  - intros record. split; auto.
  - intros r1 r2 r3 [? ?] [? ?]. split; auto.
Qed.

Global Instance ledger_le_preorder : PreOrder ledger_le.
Proof.
  split.
  - intros ledger id record Hid. exists record. split; [assumption|reflexivity].
  - intros l1 l2 l3 H12 H23 id record Hid.
    destruct (H12 id record Hid) as (record2 & Hid2 & Hle2).
    destruct (H23 id record2 Hid2) as (record3 & Hid3 & Hle3).
    exists record3. split; [assumption|]. by transitivity record2.
Qed.

(** A record stays in the ledger once it is there. *)
Lemma perform_keeps_records c w id :
  is_Some (sync_records w !! id) → is_Some (sync_records (snd (perform c w)) !! id).
Proof.
  intros Hid. destruct (perform_effect c w); [assumption|..];
    rewrite lookup_insert_is_Some'; by right.
Qed.

Lemma run_keeps_records calls w id :
  is_Some (sync_records w !! id) → is_Some (sync_records (run calls w) !! id).
Proof.
  revert w. induction calls as [|c rest IH]; intros w Hid; cbn; [assumption|].
  apply IH. by apply perform_keeps_records.
Qed.

(** A call that draws no identifier already in the ledger lowers no flag. *)
Lemma perform_monotonic c w :
  fresh_draws [c] w = true →
  ledger_le (sync_records w) (sync_records (snd (perform c w))).
Proof.
  intros Hfresh id record Hid.
  destruct (perform_effect c w) as [c|u p ip protocol opened _ _ _
                                   |u p id' ip record' now Hid'|u p id' ip record' now Hid'].
  - exists record. split; [assumption|reflexivity].
  - cbn in Hfresh. rewrite andb_true_r in Hfresh. apply bool_decide_eq_true in Hfresh.
    exists record. split; [|reflexivity].
    rewrite lookup_insert_ne; [assumption|]. intros <-. congruence.
  - destruct (decide (id' = id)) as [->|Hne].
    + rewrite lookup_insert_eq. eexists; split; [reflexivity|].
      assert (record' = record) as -> by congruence. split; cbn; auto.
    + rewrite lookup_insert_ne by assumption. exists record. split; [assumption|reflexivity].
  - destruct (decide (id' = id)) as [->|Hne].
    + rewrite lookup_insert_eq. eexists; split; [reflexivity|].
      assert (record' = record) as -> by congruence. split; cbn; auto.
    + rewrite lookup_insert_ne by assumption. exists record. split; [assumption|reflexivity].
Qed.

(** A record that a call adds to the ledger has both flags false. *)
Lemma perform_opens_false c w id record :
  sync_records w !! id = None →
  sync_records (snd (perform c w)) !! id = Some record →
  confirmed record = false ∧ acknowledged record = false.
Proof.
  intros Hnew.
  destruct (perform_effect c w) as [c|u p ip protocol opened _ Hc Ha
                                   |u p id' ip record' now Hid'|u p id' ip record' now Hid'].
  - congruence.
  - destruct (decide (uuids w (draws w) = id)) as [->|Hne].
    + rewrite lookup_insert_eq. intros [= <-]. by split.
    + rewrite lookup_insert_ne by assumption. congruence.
  - destruct (decide (id' = id)) as [->|Hne]; [congruence|].
    rewrite lookup_insert_ne by assumption. congruence.
  - destruct (decide (id' = id)) as [->|Hne]; [congruence|].
    rewrite lookup_insert_ne by assumption. congruence.
Qed.

Lemma run_keeps_unknown id calls w :
  never_drawn id calls w = true →
  sync_records w !! id = None → sync_records (run calls w) !! id = None.
Proof.
  revert w. induction calls as [|c rest IH]; intros w Hnever Hnew; cbn; [assumption|].
  cbn in Hnever. apply andb_true_iff in Hnever as [Hc Hrest].
  apply IH; [assumption|].
  destruct (perform_effect c w) as [c|u p ip protocol opened _ _ _
                                   |u p id' ip record' now Hid'|u p id' ip record' now Hid'].
  - assumption.
  - apply bool_decide_eq_true in Hc. by rewrite lookup_insert_ne.
  - rewrite lookup_insert_ne; [assumption|]. intros ->. congruence.
  - rewrite lookup_insert_ne; [assumption|]. intros ->. congruence.
Qed.

(** A call leaves the sequence of identifiers to come as it is, never
    hands one back, and a key that is new in the ledger is the identifier
    it drew. *)
Lemma perform_env c w :
  uuids (snd (perform c w)) = uuids w ∧
  (draws w ≤ draws (snd (perform c w)))%nat ∧
  ∀ id, is_Some (sync_records (snd (perform c w)) !! id) →
    is_Some (sync_records w !! id) ∨
    (id = uuids w (draws w) ∧ (draws w < draws (snd (perform c w)))%nat).
Proof.
  destruct (authenticates c w) eqn:Hauth.
  2: { destruct (perform_unauthenticated c w Hauth) as [line ->]. cbn. auto. }
  unfold authenticates in Hauth.
  destruct c as [u p ip protocol|u p ip|u p id ip|u p id ip]; cbn in Hauth |- *.
  - destruct (get_file_content_eq u p ip protocol w Hauth) as (r & w' & -> & Hu & Hd & Hcase).
    cbn. destruct (io_error w); cbn in Hd.
    + destruct Hcase as (_ & _ & _ & Hl). rewrite Hl, Hd. auto.
    + destruct Hcase as (_ & _ & _ & Hl). rewrite Hd. split_and!; [assumption|lia|].
      intros id. case_bool_decide.
      * destruct Hl as (record & -> & _). rewrite lookup_insert_is_Some.
        intros [<-|[_ ?]]; [right; split; [reflexivity|lia]|by left].
      * rewrite Hl. auto.
  - destruct (check_master_version_frame u p ip w) as (-> & -> & ->). auto.
  - destruct (confirm_sync_eq u p id ip w Hauth) as (r & w' & -> & Hu & Hd & Hcase).
    cbn. rewrite Hd. split_and!; [assumption|lia|]. intros id'.
    destruct (sync_records w !! id) as [record|] eqn:Hid.
    + destruct Hcase as (_ & _ & _ & ->). rewrite lookup_insert_is_Some.
      intros [<-|[_ ?]]; left; [by rewrite Hid|assumption].
    + destruct Hcase as (_ & _ & _ & ->). auto.
  - destruct (acknowledge_sync_eq u p id ip w Hauth) as (r & w' & -> & Hu & Hd & Hcase).
    cbn. rewrite Hd. split_and!; [assumption|lia|]. intros id'.
    destruct (sync_records w !! id) as [record|] eqn:Hid.
    + destruct Hcase as (_ & _ & _ & ->). rewrite lookup_insert_is_Some.
      intros [<-|[_ ?]]; left; [by rewrite Hid|assumption].
    + destruct Hcase as (_ & _ & _ & ->). auto.
Qed.

Lemma perform_drawn_before c w : drawn_before w → drawn_before (snd (perform c w)).
Proof.
  intros Hdrawn id Hid. destruct (perform_env c w) as (Hu & Hd & Hnew). rewrite Hu.
  destruct (Hnew id Hid) as [Hold|[-> Hlt]].
  - destruct (Hdrawn id Hold) as (k & Hk & Heq). exists k. split; [lia|assumption].
  - exists (draws w). split; [assumption|reflexivity].
Qed.

(** When [uuid4] never repeats itself and the ledger holds only
    identifiers it delivered, as the empty ledger of a new dispatcher
    does, no call draws an identifier that is in the ledger. *)
Lemma fresh_draws_injective calls w :
  Inj (=) (=) (uuids w) → drawn_before w → fresh_draws calls w = true.
Proof.
  revert w. induction calls as [|c rest IH]; intros w Hinj Hdrawn; cbn; [reflexivity|].
  apply andb_true_iff. split.
  - destruct c; try reflexivity. apply bool_decide_eq_true.
    destruct (sync_records w !! uuids w (draws w)) as [record|] eqn:Hid; [|reflexivity].
    destruct (Hdrawn _ (mk_is_Some _ _ Hid)) as (k & Hk & Heq).
    apply Hinj in Heq. lia.
  - apply IH; [|by apply perform_drawn_before].
    by rewrite (proj1 (perform_env c w)).
Qed.

Lemma fresh_draws_from_empty calls w :
  Inj (=) (=) (uuids w) → sync_records w = ∅ → fresh_draws calls w = true.
Proof.
  intros Hinj Hempty. apply fresh_draws_injective; [assumption|].
  intros id. rewrite Hempty, lookup_empty. by intros [? ?].
Qed.

(** Likewise an identifier already delivered is not delivered again. *)
Lemma never_drawn_injective calls w k :
  Inj (=) (=) (uuids w) → (k < draws w)%nat → never_drawn (uuids w k) calls w = true.
Proof.
  revert w. induction calls as [|c rest IH]; intros w Hinj Hk; cbn; [reflexivity|].
  destruct (perform_env c w) as (Hu & Hd & _).
  apply andb_true_iff. split.
  - destruct c; try reflexivity. apply bool_decide_eq_true.
    intros Heq. apply Hinj in Heq. lia.
  - rewrite <- Hu. apply IH; [by rewrite Hu|lia].
Qed.

(** C8. Along any sequence of calls of the four operations in which
    [uuid4] delivers no identifier the ledger already holds (every
    sequence on a new dispatcher, when [uuid4] never repeats itself:
    [fresh_draws_from_empty]), every record of the ledger is still there
    afterwards and none of its flags went from true back to false; and in
    every state so reached, a record that a call opens starts with both
    flags false. *)
Theorem flags_monotonic calls w :
  fresh_draws calls w = true →
  ledger_le (sync_records w) (sync_records (run calls w)) ∧
  (∀ c id record,
     sync_records (run calls w) !! id = None →
     sync_records (snd (perform c (run calls w))) !! id = Some record →
     confirmed record = false ∧ acknowledged record = false).
Proof.
  intros Hfresh. split; [|intros c id record; apply perform_opens_false].
  revert w Hfresh. induction calls as [|c rest IH]; intros w Hfresh; cbn; [reflexivity|].
  cbn in Hfresh. apply andb_true_iff in Hfresh as [Hc Hrest].
  transitivity (sync_records (snd (perform c w))); [|by apply IH].
  apply perform_monotonic. cbn. by rewrite Hc.
Qed.

Lemma flags_monotonic_witness :
  fresh_draws later_calls confirmed_once = true ∧
  ledger_le (sync_records confirmed_once) (sync_records (run later_calls confirmed_once)).
Proof.
  assert (Hfresh : fresh_draws later_calls confirmed_once = true)
    by (vm_compute; reflexivity).
  split; [exact Hfresh|].
  exact (proj1 (flags_monotonic later_calls confirmed_once Hfresh)).
Defined.

(** ** Delivery *)

(** C1 fails as stated: the authenticated request under protocol R is
    answered with a [sync_id] in its data. *)
Lemma plain_request_carries_sync_id :
  verify_user "alice" "secret" (users_file Sample.server) = true ∧
  ("R" ∉ ["RR"; "RRA"]) ∧
  (success <$> response_of plain_request) = Some true ∧
  (response_of plain_request ≫= sync_id_field)
    = Some (VStr "6fa459ea-ee8a-4ca4-894e-db77e160355e").
Proof.
  split_and!.
  - vm_compute. reflexivity.
  - apply (bool_decide_unpack _). vm_compute. exact I.
  - vm_compute. reflexivity.
  - vm_compute. reflexivity.
Qed.

(** C1 (as amended). Every authenticated call of [get_file_content] is
    answered; it succeeds exactly when the document can be read, and a
    failure carries no data. A successful response carries a [sync_id]
    field in its data under every protocol, R included: the identifier
    [uuid4] delivered. What depends on the protocol is the ledger: under
    RR and RRA the call stores a record under that identifier, under any
    other protocol it leaves the ledger as it was. *)
Theorem get_file_content_sync_id u p ip protocol w :
  verify_user u p (users_file w) = true →
  ∃ r w', get_file_content u p ip protocol w = (Ok r, w') ∧
    (success r = true ↔ io_error w = None) ∧
    (success r = false → data r = None) ∧
    (success r = true →
       sync_id_field r = Some (VStr (uuids w (draws w))) ∧
       (protocol ∈ ["RR"; "RRA"] →
          ∃ record, sync_records w' = <[uuids w (draws w) := record]> (sync_records w)) ∧
       (protocol ∉ ["RR"; "RRA"] → sync_records w' = sync_records w)).
Proof.
  intros Hauth.
  destruct (get_file_content_eq u p ip protocol w Hauth) as (r & w' & Hrun & _ & _ & Hcase).
  exists r, w'. split; [assumption|].
  destruct (io_error w) as [msg|].
  - destruct Hcase as (Hs & Hd & _ & _). rewrite Hs. split_and!; [split|..]; congruence.
  - destruct Hcase as (Hs & _ & (d & Hd & Hid) & Hledger). rewrite Hs.
    split_and!; [split; reflexivity|discriminate|]. intros _. split_and!.
    + unfold sync_id_field. by rewrite Hd.
    + intros Hin. rewrite bool_decide_eq_true_2 in Hledger by assumption.
      destruct Hledger as (record & ? & _). by exists record.
    + intros Hout. by rewrite bool_decide_eq_false_2 in Hledger.
Qed.

Lemma get_file_content_sync_id_witness :
  ∃ r w', get_file_content "alice" "secret" "10.0.0.1" "R" Sample.server = (Ok r, w') ∧
    (success r = true ↔ io_error Sample.server = None) ∧
    (success r = false → data r = None) ∧
    (success r = true →
       sync_id_field r = Some (VStr (uuids Sample.server (draws Sample.server))) ∧
       ("R" ∈ ["RR"; "RRA"] →
          ∃ record, sync_records w' = <[uuids Sample.server (draws Sample.server) := record]>
                                        (sync_records Sample.server)) ∧
       ("R" ∉ ["RR"; "RRA"] → sync_records w' = sync_records Sample.server)).
Proof.
  apply (get_file_content_sync_id "alice" "secret" "10.0.0.1" "R" Sample.server).
  vm_compute. reflexivity.
Defined.

(** C7. An authenticated [get_file_content] under protocol R (or any
    protocol other than RR and RRA) leaves [sync_records] unchanged; and,
    [uuid4] having delivered an identifier that is not in the ledger, a
    later authenticated [confirm_sync] with the [sync_id] of that response
    fails as unknown, at once and after any further calls in which
    [uuid4] does not deliver that identifier again (none does when
    [uuid4] never repeats itself: [never_drawn_injective]). *)
Theorem plain_request_opens_nothing u p ip protocol w :
  verify_user u p (users_file w) = true →
  protocol ∉ ["RR"; "RRA"] →
  sync_records w !! uuids w (draws w) = None →
  ∃ r w', get_file_content u p ip protocol w = (Ok r, w') ∧
    sync_records w' = sync_records w ∧
    ∀ id calls u' p' ip',
      sync_id_field r = Some (VStr id) →
      never_drawn id calls w' = true →
      verify_user u' p' (users_file (run calls w')) = true →
      ∃ r' w'', confirm_sync u' p' id ip' (run calls w') = (Ok r', w'') ∧
        success r' = false ∧ error r' = Some ("Unknown sync ID: " ++ id) ∧
        sync_records w'' = sync_records (run calls w').
Proof.
  intros Hauth Hplain Hfresh.
  destruct (get_file_content_eq u p ip protocol w Hauth) as (r & w' & Hrun & _ & _ & Hcase).
  rewrite bool_decide_eq_false_2 in Hcase by assumption.
  assert (Hledger : sync_records w' = sync_records w).
  { destruct (io_error w); [by destruct Hcase as (_ & _ & _ & ?)|].
    by destruct Hcase as (_ & _ & _ & ?). }
  exists r, w'. split_and!; [assumption..|].
  intros id calls u' p' ip' Hid Hnever Hauth'.
  assert (id = uuids w (draws w)) as ->.
  { unfold sync_id_field in Hid. destruct (io_error w).
    - destruct Hcase as (_ & Hd & _). rewrite Hd in Hid. discriminate.
    - destruct Hcase as (_ & _ & (d & Hd & Hd') & _). rewrite Hd in Hid. cbn in Hid.
      congruence. }
  destruct (confirm_sync_eq u' p' (uuids w (draws w)) ip' (run calls w') Hauth')
    as (r' & w'' & Hrun' & _ & _ & Hcase').
  rewrite run_keeps_unknown in Hcase' by (try assumption; by rewrite Hledger).
  destruct Hcase' as (? & _ & ? & ?). by exists r', w''.
Qed.

Lemma plain_request_opens_nothing_witness :
  ∃ r w', get_file_content "alice" "secret" "10.0.0.1" "R" Sample.server = (Ok r, w') ∧
    sync_records w' = sync_records Sample.server ∧
    ∀ id calls u' p' ip',
      sync_id_field r = Some (VStr id) →
      never_drawn id calls w' = true →
      verify_user u' p' (users_file (run calls w')) = true →
      ∃ r' w'', confirm_sync u' p' id ip' (run calls w') = (Ok r', w'') ∧
        success r' = false ∧ error r' = Some ("Unknown sync ID: " ++ id) ∧
        sync_records w'' = sync_records (run calls w').
Proof.
  apply (plain_request_opens_nothing "alice" "secret" "10.0.0.1" "R" Sample.server).
  - vm_compute. reflexivity.
  - apply (bool_decide_unpack _). vm_compute. exact I.
  - vm_compute. reflexivity.
Defined.

(** The ledger is the same whether a delivery was asked under RR or RRA. *)
Lemma ledger_ignores_protocol u p ip w :
  sync_records (snd (get_file_content u p ip "RR" w))
  = sync_records (snd (get_file_content u p ip "RRA" w)).
Proof.
  unfold get_file_content, authenticate, get_file_status, get_content, get_last_modified,
    master_exists, _ensure_file_exists, write_master, open_master.
  rewrite !bool_decide_eq_true_2 by (rewrite !elem_of_cons; auto).
  step_m.
  destruct (verify_user u p (users_file w)); cbn; [|reflexivity].
  destruct (master_file w) as [c|] eqn:Hm, (io_error w) as [msg|] eqn:Hio; cbn;
    rewrite ?Hm, ?Hio; cbn; rewrite ?Hm, ?Hio; cbn; reflexivity.
Qed.

(** C10. The ledger does not record the protocol: a delivery asked under
    RR and the same delivery asked under RRA leave the same ledger. So for
    the sync id of a successful delivery under RR or under RRA alike, at
    any later time, an authenticated [confirm_sync] succeeds and sets the
    confirmed flag, and an authenticated [acknowledge_sync] succeeds and
    sets the acknowledged flag. *)
Theorem confirm_and_acknowledge_interchangeable u p ip protocol w :
  verify_user u p (users_file w) = true →
  io_error w = None →
  protocol ∈ ["RR"; "RRA"] →
  sync_records (snd (get_file_content u p ip "RR" w))
  = sync_records (snd (get_file_content u p ip "RRA" w)) ∧
  ∃ r w' id,
    get_file_content u p ip protocol w = (Ok r, w') ∧ success r = true ∧
    sync_id_field r = Some (VStr id) ∧
    ∀ calls u' p' ip',
      verify_user u' p' (users_file (run calls w')) = true →
      (∃ r' w'', confirm_sync u' p' id ip' (run calls w') = (Ok r', w'') ∧
         success r' = true ∧ (confirmed <$> sync_records w'' !! id) = Some true) ∧
      (∃ r' w'', acknowledge_sync u' p' id ip' (run calls w') = (Ok r', w'') ∧
         success r' = true ∧ (acknowledged <$> sync_records w'' !! id) = Some true).
Proof.
  intros Hauth Hio Hprotocol. split; [apply ledger_ignores_protocol|].
  destruct (get_file_content_eq u p ip protocol w Hauth) as (r & w' & Hrun & _ & _ & Hcase).
  rewrite Hio, bool_decide_eq_true_2 in Hcase by assumption.
  destruct Hcase as (Hs & _ & (d & Hd & Hid) & (record & Hledger & _)).
  exists r, w', (uuids w (draws w)). split_and!; [assumption..| |].
  { unfold sync_id_field. by rewrite Hd. }
  intros calls u' p' ip' Hauth'.
  assert (Hknown : is_Some (sync_records (run calls w') !! uuids w (draws w))).
  { apply run_keeps_records. rewrite Hledger, lookup_insert_eq. by eexists. }
  destruct Hknown as [known Hknown]. split.
  - destruct (confirm_sync_eq u' p' (uuids w (draws w)) ip' _ Hauth')
      as (r' & w'' & Hrun' & _ & _ & Hcase').
    rewrite Hknown in Hcase'. destruct Hcase' as (Hs' & _ & _ & Hledger').
    exists r', w''. split_and!; [assumption..|]. by rewrite Hledger', lookup_insert_eq.
  - destruct (acknowledge_sync_eq u' p' (uuids w (draws w)) ip' _ Hauth')
      as (r' & w'' & Hrun' & _ & _ & Hcase').
    rewrite Hknown in Hcase'. destruct Hcase' as (Hs' & _ & _ & Hledger').
    exists r', w''. split_and!; [assumption..|]. by rewrite Hledger', lookup_insert_eq.
Qed.

Lemma confirm_and_acknowledge_interchangeable_witness :
  ∃ r w' id,
    get_file_content "alice" "secret" "10.0.0.1" "RRA" Sample.server = (Ok r, w') ∧
    success r = true ∧ sync_id_field r = Some (VStr id) ∧
    ∀ calls u' p' ip',
      verify_user u' p' (users_file (run calls w')) = true →
      (∃ r' w'', confirm_sync u' p' id ip' (run calls w') = (Ok r', w'') ∧
         success r' = true ∧ (confirmed <$> sync_records w'' !! id) = Some true) ∧
      (∃ r' w'', acknowledge_sync u' p' id ip' (run calls w') = (Ok r', w'') ∧
         success r' = true ∧ (acknowledged <$> sync_records w'' !! id) = Some true).
Proof.
  refine (proj2 (confirm_and_acknowledge_interchangeable "alice" "secret" "10.0.0.1" "RRA"
                   Sample.server _ _ _)).
  - vm_compute. reflexivity.
  - reflexivity.
  - apply (bool_decide_unpack _). vm_compute. exact I.
Defined.

(** ** Fingerprints *)


(** The initial content is read back as it was written. *)
Lemma initial_content_read : universal_newlines initial_content = initial_content.
Proof. reflexivity. Qed.



(** The line end of DOS is not kept: rewriting the document from
    [unix_lines] to [dos_lines] changes what is written and leaves the
    content read, and with it the fingerprint, as it was. *)
Lemma line_ends_are_not_kept :
  dos_lines ≠ unix_lines ∧
  response_of (get_content (snd (update_content unix_lines Sample.server))) = Some unix_lines ∧
  response_of (get_content (snd (update_content dos_lines Sample.server))) = Some unix_lines ∧
  response_of (get_version (snd (update_content dos_lines Sample.server))) =
    response_of (get_version (snd (update_content unix_lines Sample.server))).
Proof.
  split_and!; [discriminate|vm_compute; reflexivity..].
Qed.



(** ** Dispatch by name *)

(** C3 fails as stated: [authenticate] is not one of the four operations,
    yet [handle_request] runs it and hands back its boolean result, which
    is no failure response. *)
Lemma handle_request_reaches_authenticate :
  ("authenticate" ∉ remote_operations) ∧
  response_of (handle_request "authenticate" credentials_only "10.0.0.1" Sample.server)
  = Some (RetBool true).
Proof.
  split.
  - apply (bool_decide_unpack _). vm_compute. exact I.
  - vm_compute. reflexivity.
Qed.

(** Keywords never bind to a method that has no parameter [client_ip]. *)
Lemma bind_keywords_rejects h ip params w :
  "client_ip" ∉ (required h ++ optional h)%list →
  ∃ e, bind_keywords h ip params w = (Raise e, w).
Proof.
  intros Hno. unfold bind_keywords. case_bool_decide; [by eexists|].
  rewrite bool_decide_eq_false_2; [by eexists|].
  intros Hsub. apply Hno. specialize (Hsub "client_ip").
  rewrite elem_of_dom, lookup_insert_eq, elem_of_list_to_set in Hsub. by apply Hsub.
Qed.

Lemma class_methods_inv name h :
  class_methods !! name = Some h →
  name ∈ dispatchable ∨ h = h_init ∨ h = h_setup_logging.
Proof.
  intros Hin. apply elem_of_list_to_map_2 in Hin.
  rewrite !elem_of_cons, elem_of_nil in Hin.
  unfold dispatchable, remote_operations. cbn [app]. rewrite !elem_of_cons.
  destruct Hin as [Hin|[Hin|[Hin|[Hin|[Hin|[Hin|[Hin|[Hin|[Hin|[]]]]]]]]]];
    injection Hin as -> ->; tauto.
Qed.

Lemma ENDPOINTS_range name :
  (∃ path, ENDPOINTS !! path = Some name) ↔ name ∈ remote_operations.
Proof.
  unfold remote_operations. rewrite !elem_of_cons, elem_of_nil. split.
  - intros [path Hin]. apply elem_of_list_to_map_2 in Hin.
    rewrite !elem_of_cons, elem_of_nil in Hin.
    destruct Hin as [Hin|[Hin|[Hin|[Hin|[]]]]]; injection Hin as -> ->; tauto.
  - intros [->|[->|[->|[->|[]]]]].
    + by exists "/file/content".
    + by exists "/file/version".
    + by exists "/sync/confirm".
    + by exists "/sync/acknowledge".
Qed.

(** C3 (as amended). [Dispatcher.handle_request] dispatches on the
    attributes of the dispatcher, not on a closed table: besides the four
    remote operations it reaches [authenticate], [log_sync_attempt] and
    [handle_request]. For every method name outside these seven it answers
    with a failure response and runs no handler: it writes one line to the
    log and leaves the ledger and the document as they were. The closed
    set of four is that of the routing table of the HTTP layer: the
    methods [ENDPOINTS] maps a path to are exactly the four remote
    operations. *)
Theorem handle_request_closed method params ip w :
  method ∉ dispatchable →
  refused w (handle_request method params ip w) ∧
  (∀ name, (∃ path, ENDPOINTS !! path = Some name) ↔ name ∈ remote_operations).
Proof.
  intros Hout. split; [|apply ENDPOINTS_range].
  unfold refused, handle_request, getattr.
  case_bool_decide as Hfield.
  { step_m. eexists _, _, _. split_and!; try reflexivity. by eexists. }
  destruct (class_methods !! method) as [h|] eqn:Hmethod.
  { assert (Hno : "client_ip" ∉ (required h ++ optional h)%list).
    { destruct (class_methods_inv _ _ Hmethod) as [?|[->| ->]]; [contradiction|..];
        apply (bool_decide_unpack _); vm_compute; exact I. }
    unfold try_except, call. cbn [callable negb]. unfold mbind at 1, M_bind at 1.
    destruct (bind_keywords_rejects h ip params w Hno) as [e ->].
    step_m. eexists _, _, _. split_and!; try reflexivity. by eexists. }
  destruct (object_attributes !! method) as [[|]|]; cbn.
  all: step_m; eexists _, _, _; split_and!; try reflexivity; by eexists.
Qed.

Lemma handle_request_closed_witness :
  refused Sample.server
    (handle_request "sync_records" credentials_only "10.0.0.1" Sample.server) ∧
  (∀ name, (∃ path, ENDPOINTS !! path = Some name) ↔ name ∈ remote_operations).
Proof.
  apply (handle_request_closed "sync_records" credentials_only "10.0.0.1" Sample.server).
  apply (bool_decide_unpack _). vm_compute. exact I.
Defined.

(** ** The protocol end to end *)

(** The document [hello] is delivered with its fingerprint and a sync id,
    the confirmation of that id is accepted, and once the document is
    rewritten to [world] a poll sees another fingerprint. *)
Example end_to_end :
  data_field "content" delivered = Some (VStr "hello") ∧
  data_field "version" delivered = Some (VStr "5d41402abc4b2a76b9719d911017c592") ∧
  data_field "sync_id" delivered = Some (VStr "6fa459ea-ee8a-4ca4-894e-db77e160355e") ∧
  (confirmed <$> sync_records confirmed_once !! "6fa459ea-ee8a-4ca4-894e-db77e160355e")
    = Some true ∧
  master_file rewritten = Some "world" ∧
  data_field "version" polled = Some (VStr "7d793037a0760186574b0282f2f435e7").
Proof. vm_compute. split_and!; reflexivity. Qed.

(** * Further properties of the server *)

(** ** The dispatcher and its ledger *)

Lemma string_app_assoc (a b c : string) : (a ++ b) ++ c = a ++ (b ++ c).
Proof.
  induction a as [|x a IH]; [reflexivity|].
  change (String x ((a ++ b) ++ c) = String x (a ++ (b ++ c))). by rewrite IH.
Qed.

Ltac close_log :=
  eexists _, _, _; split; [reflexivity|]; cbn; unfold log_line;
  rewrite ?string_app_assoc; reflexivity.

Lemma check_master_version_eq u p ip w :
  verify_user u p (users_file w) = true →
  ∃ r w', check_master_version u p ip w = (Ok r, w') ∧
    match io_error w with
    | None =>
        success r = true ∧ error r = None ∧
        data r = Some (<["last_modified" := VNum (master_mtime w')]>
                         (<["version" := VStr (Hashlib.md5_hexdigest
                                                 (default initial_content (master_file w)))]> ∅)) ∧
        master_file w' = Some (default initial_content (master_file w))
    | Some msg =>
        success r = false ∧ data r = None ∧
        error r = Some ("Error checking version: " ++ msg) ∧
        master_file w' = master_file w
    end.
Proof.
  intros Hauth. unfold check_master_version. unfold mbind at 1, M_bind at 1.
  destruct (authenticate_eq u p ip w) as [line ->]; rewrite Hauth; cbn.
  unfold get_version, get_content, get_last_modified, master_exists, _ensure_file_exists,
    write_master, open_master.
  step_m.
  destruct (master_file w) as [c|] eqn:Hm, (io_error w) as [msg|] eqn:Hio; cbn;
    rewrite ?Hm, ?Hio; cbn; rewrite ?Hm, ?Hio; cbn; eauto 10.
Qed.

Lemma perform_ok c w : ∃ r w', perform c w = (Ok r, w').
Proof.
  destruct (authenticates c w) eqn:Hauth.
  2: { destruct (perform_unauthenticated c w Hauth) as [line ->]. eauto. }
  unfold authenticates in Hauth.
  destruct c as [u p ip protocol|u p ip|u p id ip|u p id ip]; cbn in Hauth |- *.
  - destruct (get_file_content_eq u p ip protocol w Hauth) as (r & w' & -> & _). eauto.
  - destruct (check_master_version_eq u p ip w Hauth) as (r & w' & -> & _). eauto.
  - destruct (confirm_sync_eq u p id ip w Hauth) as (r & w' & -> & _). eauto.
  - destruct (acknowledge_sync_eq u p id ip w Hauth) as (r & w' & -> & _). eauto.
Qed.

Lemma handle_request_ok method params ip w :
  ∃ v w', handle_request method params ip w = (Ok v, w').
Proof.
  unfold handle_request, try_except.
  match goal with |- context [match ?body w with _ => _ end] => destruct (body w) as [[v|e] w'] end.
  - eauto.
  - step_m. eauto.
Qed.

(** X1. No exception leaves a handler or [handle_request]: whatever the
    arguments and the state of the server, a failing disk included, each
    of the four operations returns a response, and [handle_request]
    returns a value for every method name and all parameters. *)
Theorem no_fault_escapes :
  (∀ c w, ∃ r w', perform c w = (Ok r, w')) ∧
  (∀ method params ip w, ∃ v w', handle_request method params ip w = (Ok v, w')).
Proof. split; [apply perform_ok | apply handle_request_ok]. Qed.

(** X2. Every call of one of the four operations appends exactly one
    line to the log, whether it succeeds, fails or is refused; the line
    starts with the outcome, the address of the caller and the user name
    the caller gave. *)
Theorem every_call_leaves_one_log_line c w :
  ∃ r w' operation,
    perform c w = (Ok r, w') ∧
    log_file w' =
      (log_file w ++ [log_line (success r) (caller_ip c) (credentials c).1 operation])%list.
Proof.
  destruct c as [u p ip protocol|u p ip|u p id ip|u p id ip]; cbn.
  - unfold get_file_content, authenticate, get_file_status, get_content, get_last_modified,
      master_exists, _ensure_file_exists, write_master, open_master.
    step_m.
    destruct (verify_user u p (users_file w)); cbn; [|close_log].
    destruct (master_file w) as [c|] eqn:Hm, (io_error w) as [msg|] eqn:Hio; cbn;
      rewrite ?Hm, ?Hio; cbn; rewrite ?Hm, ?Hio; cbn.
    all: try (case_bool_decide; cbn).
    all: try (destruct (truthy msg); cbn).
    all: close_log.
  - unfold check_master_version, authenticate, get_version, get_content, get_last_modified,
      master_exists, _ensure_file_exists, write_master, open_master.
    step_m.
    destruct (verify_user u p (users_file w)); cbn; [|close_log].
    destruct (master_file w) as [c|] eqn:Hm, (io_error w) as [msg|] eqn:Hio; cbn;
      rewrite ?Hm, ?Hio; cbn; rewrite ?Hm, ?Hio; cbn.
    all: try (destruct (truthy msg); cbn).
    all: close_log.
  - unfold confirm_sync, authenticate. step_m.
    destruct (verify_user u p (users_file w)); cbn; [|close_log].
    destruct (sync_records w !! id); cbn; close_log.
  - unfold acknowledge_sync, authenticate. step_m.
    destruct (verify_user u p (users_file w)); cbn; [|close_log].
    destruct (sync_records w !! id); cbn; close_log.
Qed.

(** The record a delivery under RR or RRA stores. *)
Lemma get_file_content_opens u p ip protocol w :
  verify_user u p (users_file w) = true →
  io_error w = None →
  protocol ∈ ["RR"; "RRA"] →
  ∃ now, sync_records (snd (get_file_content u p ip protocol w))
         = <[uuids w (draws w) :=
               {| sync_id := uuids w (draws w); client_ip := ip; username := u;
                  request_time := now; confirmed := false; acknowledged := false;
                  confirmation_time := None; acknowledgment_time := None |}]> (sync_records w).
Proof.
  intros Hauth Hio Hprotocol.
  unfold get_file_content, authenticate, get_file_status, get_content, get_last_modified,
    master_exists, _ensure_file_exists, write_master, open_master.
  rewrite (bool_decide_eq_true_2 _ Hprotocol).
  step_m. rewrite Hauth. cbn.
  destruct (master_file w) as [c|] eqn:Hm; cbn; rewrite ?Hm, ?Hio; cbn;
    rewrite ?Hm, ?Hio; cbn; by eexists.
Qed.

(** X3. An authenticated [acknowledge_sync] on a known sync id succeeds,
    sets [acknowledged] and stamps [acknowledgment_time] with the time of
    the call; it leaves the confirmation, the request fields of the
    record and every other record as they were. *)
Theorem acknowledge_sync_marks u p id ip w record :
  verify_user u p (users_file w) = true →
  sync_records w !! id = Some record →
  ∃ r w' record',
    acknowledge_sync u p id ip w = (Ok r, w') ∧ success r = true ∧ error r = None ∧
    data r = Some (<["acknowledged" := VBool true]> (<["sync_id" := VStr id]> ∅)) ∧
    sync_records w' !! id = Some record' ∧
    acknowledged record' = true ∧
    acknowledgment_time record' = Some (clock w (ticks w)) ∧
    confirmed record' = confirmed record ∧
    confirmation_time record' = confirmation_time record ∧
    same_request record record' ∧
    (∀ other, other ≠ id → sync_records w' !! other = sync_records w !! other).
Proof.
  intros Hauth Hknown.
  destruct (acknowledge_sync_eq u p id ip w Hauth) as (r & w' & Hrun & _ & _ & Hcase).
  rewrite Hknown in Hcase. destruct Hcase as (Hs & He & Hd & Hl).
  exists r, w', (mark_acknowledged (clock w (ticks w)) record).
  rewrite Hl, lookup_insert_eq. split_and!; try done.
  intros other Hother. by rewrite lookup_insert_ne.
Qed.

Lemma acknowledge_sync_marks_witness :
  ∃ r w' record',
    acknowledge_sync "alice" "secret" "6fa459ea-ee8a-4ca4-894e-db77e160355e" "10.0.0.2"
      open_delivery = (Ok r, w') ∧ success r = true ∧
    sync_records w' !! "6fa459ea-ee8a-4ca4-894e-db77e160355e" = Some record' ∧
    acknowledged record' = true ∧
    acknowledgment_time record' = Some (clock open_delivery (ticks open_delivery)) ∧
    confirmed record' = false ∧ same_request open_record record'.
Proof.
  destruct (acknowledge_sync_marks "alice" "secret" "6fa459ea-ee8a-4ca4-894e-db77e160355e"
              "10.0.0.2" open_delivery open_record)
    as (r & w' & record' & Hrun & Hs & _ & _ & Hl & Ha & Ht & Hc & _ & Hsame & _).
  - vm_compute. reflexivity.
  - vm_compute. reflexivity.
  - exists r, w', record'. split_and!; assumption.
Defined.

Lemma record_wf_confirmed id now record :
  record_wf id record → record_wf id (mark_confirmed now record).
Proof. intros (Hid & Hc & Ha). unfold record_wf. cbn. split_and!; [done|split; eauto|done]. Qed.

Lemma record_wf_acknowledged id now record :
  record_wf id record → record_wf id (mark_acknowledged now record).
Proof. intros (Hid & Hc & Ha). unfold record_wf. cbn. split_and!; [done|done|split; eauto]. Qed.

Lemma perform_wf c w :
  ledger_wf (sync_records w) → ledger_wf (sync_records (snd (perform c w))).
Proof.
  intros Hwf.
  destruct (authenticates c w) eqn:Hauth.
  2: { destruct (perform_unauthenticated c w Hauth) as [line ->]. exact Hwf. }
  unfold authenticates in Hauth.
  destruct c as [u p ip protocol|u p ip|u p id ip|u p id ip]; cbn in Hauth |- *.
  - destruct (io_error w) as [msg|] eqn:Hio.
    + destruct (get_file_content_eq u p ip protocol w Hauth) as (r & w' & -> & _ & _ & Hcase).
      rewrite Hio in Hcase. cbn. destruct Hcase as (_ & _ & _ & ->). exact Hwf.
    + destruct (decide (protocol ∈ ["RR"; "RRA"])) as [Hin|Hout].
      * destruct (get_file_content_opens u p ip protocol w Hauth Hio Hin) as [now ->].
        intros id record. rewrite lookup_insert. case_decide as Hid.
        -- intros [= <-]. subst id. split_and!; cbn; try done; split; try done;
             by intros [? ?].
        -- apply Hwf.
      * destruct (get_file_content_eq u p ip protocol w Hauth) as (r & w' & -> & _ & _ & Hcase).
        rewrite Hio, (bool_decide_eq_false_2 _ Hout) in Hcase.
        cbn. destruct Hcase as (_ & _ & _ & ->). exact Hwf.
  - rewrite (proj1 (check_master_version_frame u p ip w)). exact Hwf.
  - destruct (confirm_sync_eq u p id ip w Hauth) as (r & w' & -> & _ & _ & Hcase).
    cbn. destruct (sync_records w !! id) as [record|] eqn:Hid.
    + destruct Hcase as (_ & _ & _ & ->). intros id' record'.
      rewrite lookup_insert. case_decide as Hid'.
      * intros [= <-]. subst id'. apply record_wf_confirmed. by apply Hwf.
      * apply Hwf.
    + destruct Hcase as (_ & _ & _ & ->). exact Hwf.
  - destruct (acknowledge_sync_eq u p id ip w Hauth) as (r & w' & -> & _ & _ & Hcase).
    cbn. destruct (sync_records w !! id) as [record|] eqn:Hid.
    + destruct Hcase as (_ & _ & _ & ->). intros id' record'.
      rewrite lookup_insert. case_decide as Hid'.
      * intros [= <-]. subst id'. apply record_wf_acknowledged. by apply Hwf.
      * apply Hwf.
    + destruct Hcase as (_ & _ & _ & ->). exact Hwf.
Qed.

(** X4. The ledger stays well formed along any sequence of calls: every
    record sits under its own sync id, and it carries a confirmation
    (acknowledgment) time exactly when its flag is set. *)
Theorem ledger_stays_well_formed calls w :
  ledger_wf (sync_records w) → ledger_wf (sync_records (run calls w)).
Proof.
  revert w. induction calls as [|c rest IH]; intros w Hwf; cbn; [exact Hwf|].
  apply IH. by apply perform_wf.
Qed.

Lemma ledger_stays_well_formed_witness :
  ledger_wf (sync_records Sample.server) ∧
  ledger_wf (sync_records (run later_calls Sample.server)).
Proof.
  assert (Hwf : ledger_wf (sync_records Sample.server)).
  { intros id record Hid. vm_compute in Hid. discriminate. }
  split; [exact Hwf|].
  exact (ledger_stays_well_formed later_calls Sample.server Hwf).
Defined.

Lemma empty_ledger_wf : ledger_wf ∅.
Proof. intros id record. by rewrite lookup_empty. Qed.

Lemma perform_growth c w :
  dom (sync_records w) ⊆ dom (sync_records (snd (perform c w))) ∧
  (size (sync_records (snd (perform c w)))
   ≤ size (sync_records w) + (if opens c then 1 else 0))%nat.
Proof.
  destruct (perform_effect c w) as [c|u p ip protocol opened Hin _ _
                                   |u p id ip record now Hid|u p id ip record now Hid].
  - split; [done|lia].
  - cbn. rewrite (bool_decide_eq_true_2 _ Hin). split.
    + apply dom_insert_subseteq.
    + destruct (sync_records w !! uuids w (draws w)) eqn:Hnew.
      * rewrite map_size_insert_Some by done. lia.
      * rewrite map_size_insert_None by done. lia.
  - cbn. split; [apply dom_insert_subseteq|].
    rewrite map_size_insert_Some by done. lia.
  - cbn. split; [apply dom_insert_subseteq|].
    rewrite map_size_insert_Some by done. lia.
Qed.

(** X5. No call removes a record: the sync ids of the ledger only grow
    along any sequence of calls, and their number grows by at most one
    for each delivery under RR or RRA. *)
Theorem ledger_only_grows calls w :
  dom (sync_records w) ⊆ dom (sync_records (run calls w)) ∧
  (size (sync_records (run calls w))
   ≤ size (sync_records w) + length (List.filter opens calls))%nat.
Proof.
  revert w. induction calls as [|c rest IH]; intros w; cbn; [split; [done|lia]|].
  destruct (perform_growth c w) as [Hdom Hsize].
  destruct (IH (snd (perform c w))) as [Hdom' Hsize'].
  split; [by etrans|].
  destruct (opens c); cbn; lia.
Qed.

(** X6. [confirm_sync] and [acknowledge_sync] do not look at who calls:
    any two authenticated callers, from any two addresses, get the same
    response for the same sync id and leave the same ledger, whoever the
    record was opened for. *)
Theorem confirmation_ignores_the_caller u1 p1 ip1 u2 p2 ip2 id w :
  verify_user u1 p1 (users_file w) = true →
  verify_user u2 p2 (users_file w) = true →
  (∃ r w1 w2, confirm_sync u1 p1 id ip1 w = (Ok r, w1) ∧
     confirm_sync u2 p2 id ip2 w = (Ok r, w2) ∧ sync_records w1 = sync_records w2) ∧
  (∃ r w1 w2, acknowledge_sync u1 p1 id ip1 w = (Ok r, w1) ∧
     acknowledge_sync u2 p2 id ip2 w = (Ok r, w2) ∧ sync_records w1 = sync_records w2).
Proof.
  intros Hauth1 Hauth2. split.
  - unfold confirm_sync, authenticate. step_m. rewrite Hauth1, Hauth2. cbn.
    destruct (sync_records w !! id); cbn; by eexists _, _, _.
  - unfold acknowledge_sync, authenticate. step_m. rewrite Hauth1, Hauth2. cbn.
    destruct (sync_records w !! id); cbn; by eexists _, _, _.
Qed.

Lemma confirmation_ignores_the_caller_witness :
  (∃ r w1 w2,
     confirm_sync "alice" "secret" "6fa459ea-ee8a-4ca4-894e-db77e160355e" "10.0.0.1"
       shared_server = (Ok r, w1) ∧
     confirm_sync "bob" "builder" "6fa459ea-ee8a-4ca4-894e-db77e160355e" "10.0.0.2"
       shared_server = (Ok r, w2) ∧ sync_records w1 = sync_records w2) ∧
  (∃ r w1 w2,
     acknowledge_sync "alice" "secret" "6fa459ea-ee8a-4ca4-894e-db77e160355e" "10.0.0.1"
       shared_server = (Ok r, w1) ∧
     acknowledge_sync "bob" "builder" "6fa459ea-ee8a-4ca4-894e-db77e160355e" "10.0.0.2"
       shared_server = (Ok r, w2) ∧ sync_records w1 = sync_records w2).
Proof.
  apply (confirmation_ignores_the_caller "alice" "secret" "10.0.0.1" "bob" "builder" "10.0.0.2"
           "6fa459ea-ee8a-4ca4-894e-db77e160355e" shared_server).
  - vm_compute. reflexivity.
  - vm_compute. reflexivity.
Defined.

Global Instance same_request_preorder : PreOrder same_request.
Proof.
  split.
  - intros record. by split_and!.
  - intros r1 r2 r3 (? & ? & ? & ?) (? & ? & ? & ?). split_and!; congruence.
Qed.

Lemma perform_keeps_request c w id record :
  fresh_draws [c] w = true →
  sync_records w !! id = Some record →
  ∃ record', sync_records (snd (perform c w)) !! id = Some record' ∧
    same_request record record'.
Proof.
  intros Hfresh Hid.
  destruct (perform_effect c w) as [c|u p ip protocol opened _ _ _
                                   |u p id' ip record' now Hid'|u p id' ip record' now Hid'].
  - exists record. split; [assumption|reflexivity].
  - cbn in Hfresh. rewrite andb_true_r in Hfresh. apply bool_decide_eq_true in Hfresh.
    exists record. split; [|reflexivity].
    rewrite lookup_insert_ne; [assumption|]. intros <-. congruence.
  - destruct (decide (id' = id)) as [->|Hne].
    + rewrite lookup_insert_eq. eexists; split; [reflexivity|].
      assert (record' = record) as -> by congruence. by split_and!.
    + rewrite lookup_insert_ne by assumption. exists record. split; [assumption|reflexivity].
  - destruct (decide (id' = id)) as [->|Hne].
    + rewrite lookup_insert_eq. eexists; split; [reflexivity|].
      assert (record' = record) as -> by congruence. by split_and!.
    + rewrite lookup_insert_ne by assumption. exists record. split; [assumption|reflexivity].
Qed.

(** X7. Who asked for a delivery, from where and when is never
    rewritten: along any sequence of calls in which [uuid4] delivers no
    identifier already in the ledger, a record keeps its [sync_id],
    [client_ip], [username] and [request_time]. *)
Theorem request_is_never_rewritten calls w id record :
  fresh_draws calls w = true →
  sync_records w !! id = Some record →
  ∃ record', sync_records (run calls w) !! id = Some record' ∧ same_request record record'.
Proof.
  revert w record. induction calls as [|c rest IH]; intros w record Hfresh Hid; cbn.
  { exists record. split; [assumption|reflexivity]. }
  cbn in Hfresh. apply andb_true_iff in Hfresh as [Hc Hrest].
  destruct (perform_keeps_request c w id record) as (mid & Hmid & Hsame);
    [cbn; by rewrite Hc|assumption|].
  destruct (IH _ mid Hrest Hmid) as (record' & Hid' & Hsame').
  exists record'. split; [assumption|]. by transitivity mid.
Qed.

Lemma request_is_never_rewritten_witness :
  ∃ record',
    sync_records (run later_calls open_delivery) !! "6fa459ea-ee8a-4ca4-894e-db77e160355e"
      = Some record' ∧
    same_request open_record record'.
Proof.
  apply (request_is_never_rewritten later_calls open_delivery).
  - vm_compute. reflexivity.
  - vm_compute. reflexivity.
Defined.

(** X8. [get_file_status] on a working disk returns the content of the
    master file, the MD5 digest of that very content and the modification
    time of the file as it is left; a missing file is first created with
    the initial content, an existing one leaves the world untouched. On a
    failing disk the error of [open] is raised. *)
Theorem get_file_status_is_a_snapshot w :
  match io_error w with
  | None =>
      ∃ st w', get_file_status w = (Ok st, w') ∧
        content st = default initial_content (master_file w) ∧
        master_file w' = Some (content st) ∧
        version st = Hashlib.md5_hexdigest (content st) ∧
        last_modified st = master_mtime w' ∧
        (is_Some (master_file w) → w' = w)
  | Some msg => get_file_status w = (Raise (OSError msg), w)
  end.
Proof.
  unfold get_file_status, get_content, get_last_modified, master_exists, _ensure_file_exists,
    write_master, open_master.
  step_m.
  destruct (master_file w) as [c|] eqn:Hm, (io_error w) as [msg|] eqn:Hio; cbn;
    rewrite ?Hm, ?Hio; cbn; rewrite ?Hm, ?Hio; cbn; try reflexivity.
  - eexists _, _. split_and!; try reflexivity. done.
  - rewrite initial_content_read. eexists _, _. split_and!; try reflexivity. by intros [? ?].
Qed.


(** X9. Polling agrees with delivery: from the same state, the version
    [check_master_version] reports is the version [get_file_content]
    delivers, the MD5 digest of the delivered content; and polling opens
    no record and draws no identifier. *)
Theorem poll_agrees_with_delivery u p ip protocol w :
  verify_user u p (users_file w) = true →
  io_error w = None →
  ∃ polled w1 delivered w2 document,
    check_master_version u p ip w = (Ok polled, w1) ∧
    get_file_content u p ip protocol w = (Ok delivered, w2) ∧
    document = default initial_content (master_file w) ∧
    (data polled ≫= lookup "version") = Some (VStr (Hashlib.md5_hexdigest document)) ∧
    (data delivered ≫= lookup "version") = Some (VStr (Hashlib.md5_hexdigest document)) ∧
    (data delivered ≫= lookup "content") = Some (VStr document) ∧
    (data polled ≫= lookup "last_modified") = Some (VNum (master_mtime w1)) ∧
    sync_records w1 = sync_records w ∧ draws w1 = draws w.
Proof.
  intros Hauth Hio.
  unfold check_master_version, get_file_content, authenticate, get_file_status, get_version,
    get_content, get_last_modified, master_exists, _ensure_file_exists, write_master,
    open_master.
  step_m. rewrite Hauth. cbn.
  destruct (master_file w) as [c|] eqn:Hm; cbn; rewrite ?Hm, ?Hio; cbn;
    rewrite ?Hm, ?Hio; cbn.
  all: case_bool_decide; cbn.
  all: eexists _, _, _, _, _; split_and!; reflexivity.
Qed.

Lemma poll_agrees_with_delivery_witness :
  ∃ polled w1 delivered w2,
    check_master_version "alice" "secret" "10.0.0.1" Sample.server = (Ok polled, w1) ∧
    get_file_content "alice" "secret" "10.0.0.1" "RR" Sample.server = (Ok delivered, w2) ∧
    (data polled ≫= lookup "version") = Some (VStr (Hashlib.md5_hexdigest "hello")) ∧
    (data delivered ≫= lookup "version") = Some (VStr (Hashlib.md5_hexdigest "hello")) ∧
    (data delivered ≫= lookup "content") = Some (VStr "hello") ∧
    sync_records w1 = sync_records Sample.server.
Proof.
  destruct (poll_agrees_with_delivery "alice" "secret" "10.0.0.1" "RR" Sample.server)
    as (polled & w1 & delivered & w2 & document & Hp & Hd & Hdoc & Hv1 & Hv2 & Hc & _ & Hl & _).
  - vm_compute. reflexivity.
  - reflexivity.
  - cbn [master_file Sample.server default from_option] in Hdoc. unfold id in Hdoc.
    subst document. exists polled, w1, delivered, w2. split_and!; assumption.
Defined.

Lemma bind_keywords_fit h ip params w :
  keywords_fit h params → bind_keywords h ip params w = (Ok (<["client_ip" := ip]> params), w).
Proof.
  intros (Hall & Hip & Hreq). unfold bind_keywords.
  rewrite bool_decide_eq_false_2 by (by rewrite <- elem_of_dom).
  rewrite bool_decide_eq_true_2.
  2: { intros name. rewrite dom_insert, elem_of_union, elem_of_singleton. intros Hname.
       apply Hall. rewrite elem_of_union, elem_of_singleton. tauto. }
  rewrite bool_decide_eq_true_2; [reflexivity|].
  apply Forall_forall. intros name Hname. apply elem_of_dom.
  rewrite dom_insert, elem_of_union, elem_of_singleton.
  assert (Hin : name ∈ dom params ∪ {["client_ip"]})
    by (apply Hreq; by apply elem_of_list_to_set).
  rewrite elem_of_union, elem_of_singleton in Hin. tauto.
Qed.

Lemma bind_keywords_unfit h ip params w :
  ¬ keywords_fit h params → ∃ e, bind_keywords h ip params w = (Raise e, w).
Proof.
  intros Hunfit. unfold bind_keywords.
  case_bool_decide as Hip; [by eexists|].
  case_bool_decide as Hall; cbn; [|by eexists].
  case_bool_decide as Hreq; cbn; [|by eexists].
  destruct Hunfit. split_and!.
  - intros name. rewrite elem_of_union, elem_of_singleton. intros Hname.
    apply Hall. rewrite dom_insert, elem_of_union, elem_of_singleton. tauto.
  - by rewrite elem_of_dom.
  - intros name Hname. apply elem_of_list_to_set in Hname.
    rewrite Forall_forall in Hreq. specialize (Hreq name Hname).
    rewrite <- elem_of_dom, dom_insert, elem_of_union, elem_of_singleton in Hreq.
    rewrite elem_of_union, elem_of_singleton. tauto.
Qed.

Lemma getattr_method name h :
  class_methods !! name = Some h → getattr name = Some (Method h).
Proof.
  intros Hin. unfold getattr. rewrite Hin.
  rewrite bool_decide_eq_false_2; [reflexivity|].
  apply elem_of_list_to_map_2 in Hin. rewrite !elem_of_cons, elem_of_nil in Hin.
  unfold instance_attributes. rewrite !elem_of_cons, elem_of_nil.
  destruct Hin as [Hin|[Hin|[Hin|[Hin|[Hin|[Hin|[Hin|[Hin|[Hin|[]]]]]]]]]];
    injection Hin as -> ->; intros [?|[?|[?|[?|[]]]]]; discriminate.
Qed.

Lemma handle_request_unfit method h params ip w :
  class_methods !! method = Some h →
  ¬ keywords_fit h params →
  ∃ r w' line reason,
    handle_request method params ip w = (Ok (RetResponse r), w') ∧
    success r = false ∧ data r = None ∧
    error r = Some ("Error processing request: " ++ reason) ∧
    sync_records w' = sync_records w ∧
    master_file w' = master_file w ∧ master_mtime w' = master_mtime w ∧
    draws w' = draws w ∧
    log_file w' = (log_file w ++ [line])%list.
Proof.
  intros Hmethod Hunfit. unfold handle_request.
  rewrite (getattr_method _ _ Hmethod). cbn [callable negb].
  unfold try_except, call. unfold mbind at 1, M_bind at 1.
  destruct (bind_keywords_unfit h ip params w Hunfit) as [e ->].
  step_m. eexists _, _, _, _. split_and!; reflexivity.
Qed.

(** X10. A call through [handle_request] whose keywords do not fit the
    method (a keyword the method has no parameter for, [client_ip] given
    twice, or a parameter without default left out) never reaches the
    body of the method: the answer is a failure that starts with
    [Error processing request], the ledger and the master file are
    unchanged, no identifier is drawn and one line is logged. *)
Theorem ill_fitting_call_is_refused method h params ip w :
  class_methods !! method = Some h →
  ¬ keywords_fit h params →
  ∃ r w' line reason,
    handle_request method params ip w = (Ok (RetResponse r), w') ∧
    success r = false ∧ data r = None ∧
    error r = Some ("Error processing request: " ++ reason) ∧
    sync_records w' = sync_records w ∧
    master_file w' = master_file w ∧ master_mtime w' = master_mtime w ∧
    draws w' = draws w ∧
    log_file w' = (log_file w ++ [line])%list.
Proof. apply handle_request_unfit. Qed.

Lemma handle_request_perform c w r w' :
  perform c w = (Ok r, w') →
  handle_request (method_of c) (params_of c) (caller_ip c) w = (Ok (RetResponse r), w').
Proof.
  intros Hrun. unfold handle_request.
  destruct c as [u p ip protocol|u p ip|u p sid ip|u p sid ip];
    cbn [method_of params_of caller_ip]; cbn in Hrun.
  all: erewrite getattr_method by (vm_compute; reflexivity).
  all: cbn [callable negb]; unfold try_except, call; unfold mbind at 1, M_bind at 1.
  all: rewrite bind_keywords_fit by (apply (bool_decide_unpack _); vm_compute; exact I).
  all: unfold invoke, arg; unfold mbind at 1, M_bind at 1.
  all: repeat match goal with
              | |- context [?m !! ?k] =>
                  let v := eval vm_compute in (m !! k) in change (m !! k) with v
              end.
  all: cbn [default from_option]; unfold id; by rewrite Hrun.
Qed.

Lemma ill_fitting_call_is_refused_witness :
  ∃ r w' line reason,
    handle_request "confirm_sync" stray_params "10.0.0.1" open_delivery
      = (Ok (RetResponse r), w') ∧
    success r = false ∧ data r = None ∧
    error r = Some ("Error processing request: " ++ reason) ∧
    sync_records w' = sync_records open_delivery ∧
    master_file w' = master_file open_delivery ∧
    master_mtime w' = master_mtime open_delivery ∧
    draws w' = draws open_delivery ∧
    log_file w' = (log_file open_delivery ++ [line])%list.
Proof.
  apply (ill_fitting_call_is_refused "confirm_sync" h_confirm_sync stray_params "10.0.0.1"
           open_delivery).
  - reflexivity.
  - apply (bool_decide_unpack _). vm_compute. exact I.
Defined.

(** X11. Dispatch is transparent: calling one of the four operations
    through [handle_request], by its name and with its arguments as
    keywords, gives the response and the state of the direct call. *)
Theorem dispatch_is_transparent c w :
  ∃ r w', perform c w = (Ok r, w') ∧
    handle_request (method_of c) (params_of c) (caller_ip c) w = (Ok (RetResponse r), w').
Proof.
  destruct (perform_ok c w) as (r & w' & Hrun). exists r, w'.
  split; [assumption | by apply handle_request_perform].
Qed.

(** ** The users file *)

(** X12. After a successful [add_user] the new credentials verify,
    whatever the users file held before (nothing, something that does not
    load, or a table with or without that user); when the file cannot be
    written [add_user] returns [False] and the file is as it was. *)
Theorem add_user_then_verify username password file :
  (∃ file', add_user username password true file = (true, file') ∧
            verify_user username password file' = true) ∧
  add_user username password false file = (false, file).
Proof.
  unfold add_user. split; [|reflexivity]. eexists. split; [reflexivity|].
  unfold verify_user. rewrite lookup_insert_eq. by apply bool_decide_eq_true.
Qed.

(** X13. [add_user] on a users file that loads changes the entry of that
    user only: every other user verifies exactly as before. *)
Theorem add_user_keeps_the_others username password users other secret :
  other ≠ username →
  verify_user other secret (add_user username password true (UsersTable users)).2
  = verify_user other secret (UsersTable users).
Proof.
  intros Hother. unfold add_user, verify_user, snd. by rewrite lookup_insert_ne.
Qed.

Lemma add_user_keeps_the_others_witness :
  verify_user "alice" "secret"
    (add_user "bob" "builder" true (UsersTable Sample.users)).2
  = verify_user "alice" "secret" (UsersTable Sample.users).
Proof.
  apply (add_user_keeps_the_others "bob" "builder" Sample.users "alice" "secret").
  vm_compute. discriminate.
Defined.

(** X14. [add_user] lets in nobody else: whoever verifies afterwards is the
    added user with a password of the same hash (so the old password of a
    user added again no longer works unless it hashes alike), or verified
    before. A users file that did not load is replaced, and then holds
    the added user alone. *)
Theorem add_user_replaces username password file other secret :
  verify_user other secret (add_user username password true file).2 = true →
  (other = username ∧ hash_password secret = hash_password password) ∨
  (other ≠ username ∧ verify_user other secret file = true).
Proof.
  unfold add_user, snd. unfold verify_user at 1.
  destruct (decide (other = username)) as [->|Hother].
  - rewrite lookup_insert_eq. intros Heq%bool_decide_eq_true. by left.
  - rewrite lookup_insert_ne by done. intros Hverify. right. split; [done|].
    destruct file as [| |users]; [by rewrite lookup_empty in Hverify..|exact Hverify].
Qed.

Lemma add_user_replaces_witness :
  ("bob" = "bob" ∧ hash_password "builder" = hash_password "builder") ∨
  ("bob" ≠ "bob" ∧ verify_user "bob" "builder" BadUsersFile = true).
Proof.
  apply (add_user_replaces "bob" "builder" BadUsersFile "bob" "builder").
  vm_compute. reflexivity.
Defined.

(** X15. [create_default_users_file] on a missing users file leaves one
    account, [admin] with the password [password] (or one of the same
    hash); when the file cannot be written the failure of [add_user] goes
    unnoticed and the file stays missing, while a failure of [os.makedirs]
    is raised. A users file that exists, loadable or not, is left as it
    is. *)
Theorem default_account username password :
  (∃ file, create_default_users_file true true NoUsersFile = Ok file ∧
     (verify_user username password file = true ↔
      username = "admin" ∧ hash_password password = hash_password "password")) ∧
  create_default_users_file true false NoUsersFile = Ok NoUsersFile ∧
  (∃ e, ∀ writable, create_default_users_file false writable NoUsersFile = Raise e) ∧
  (∀ can_mkdir writable file, file ≠ NoUsersFile →
     create_default_users_file can_mkdir writable file = Ok file).
Proof.
  split_and!.
  - eexists. split; [reflexivity|].
    unfold add_user, snd, verify_user.
    destruct (decide (username = "admin")) as [->|Hother].
    + rewrite lookup_insert_eq, bool_decide_eq_true. split; [by intros ->|by intros [_ ->]].
    + rewrite lookup_insert_ne, lookup_empty by done. split; [done|by intros [? _]].
  - reflexivity.
  - by eexists.
  - by intros can_mkdir writable [| |users] Hfile.
Qed.

(** ** The Authorization header *)

Section base64_and_utf8.
Local Open Scope Z_scope.
Import Codec.

Lemma bytes_of_string_range (s : string) : byte_range (Hashlib.bytes_of_string s).
Proof.
  unfold byte_range, Hashlib.bytes_of_string.
  induction s as [|c s IH]; [constructor|].
  cbn [list_ascii_of_string map]. constructor; [|exact IH].
  pose proof (N_ascii_bounded c). lia.
Qed.

Lemma bytes_of_string_app (a b : string) :
  Hashlib.bytes_of_string (a ++ b) = (Hashlib.bytes_of_string a ++ Hashlib.bytes_of_string b)%list.
Proof.
  unfold Hashlib.bytes_of_string.
  induction a as [|c a IH]; [reflexivity|].
  change (String c a ++ b)%string with (String c (a ++ b)%string).
  cbn [list_ascii_of_string map app]. by rewrite IH.
Qed.

Lemma string_of_bytes_of_string (s : string) :
  string_of_bytes (Hashlib.bytes_of_string s) = s.
Proof.
  unfold string_of_bytes, Hashlib.bytes_of_string.
  induction s as [|c s IH]; [reflexivity|].
  cbn [list_ascii_of_string map string_of_list_ascii].
  by rewrite N2Z.id, ascii_N_embedding, IH.
Qed.

Lemma bytes_of_string_of_bytes (bs : list Z) :
  byte_range bs -> Hashlib.bytes_of_string (string_of_bytes bs) = bs.
Proof.
  unfold string_of_bytes, Hashlib.bytes_of_string.
  induction 1 as [|b bs Hb _ IH]; [reflexivity|].
  cbn [map string_of_list_ascii list_ascii_of_string].
  rewrite IH, N_ascii_embedding by lia. f_equal. lia.
Qed.

Lemma b64_value_char (v : Z) : 0 <= v < 64 -> b64_value (b64_char v) = Some v.
Proof.
  intros Hv. unfold b64_char, b64_value.
  repeat match goal with
         | |- context [?a <? ?b] => destruct (Z.ltb_spec a b)
         | |- context [?a <=? ?b] => destruct (Z.leb_spec a b)
         | |- context [?a =? ?b] => destruct (Z.eqb_spec a b)
         end; cbn [andb]; try lia; f_equal; lia.
Qed.

Lemma b64_char_range (v : Z) : 0 <= v < 64 -> 43 <= b64_char v < 123 /\ b64_char v <> 61.
Proof.
  intros Hv. unfold b64_char.
  repeat match goal with
         | |- context [?a <? ?b] => destruct (Z.ltb_spec a b)
         | |- context [?a =? ?b] => destruct (Z.eqb_spec a b)
         end; lia.
Qed.

(** Induction on a list three elements at a time. *)
Lemma list_ind3 {A} (P : list A -> Prop) :
  P [] -> (forall a, P [a]) -> (forall a b, P [a; b]) ->
  (forall a b c l, P l -> P (a :: b :: c :: l)) -> forall l, P l.
Proof.
  intros H0 H1 H2 H3.
  fix IH 1. intros [|a [|b [|c l]]]; [exact H0 | exact (H1 a) | exact (H2 a b) |].
  exact (H3 a b c l (IH l)).
Qed.

Ltac sextets := Z.div_mod_to_equations; lia.
Ltac bytes_back :=
  repeat match goal with |- _ :: _ = _ :: _ => f_equal end; sextets.

Lemma b64encode_range (bs : list Z) :
  byte_range bs -> Forall (fun c => 0 <= c < 128) (b64encode bs).
Proof.
  unfold byte_range.
  induction bs as [|a|a b|a b c l IH] using list_ind3; intros Hbs;
    repeat match goal with H : Forall _ (_ :: _) |- _ => apply Forall_cons in H; destruct H end;
    cbn [b64encode]; repeat apply Forall_cons_2; try apply Forall_nil_2; try (by apply IH);
    try lia;
    match goal with |- 0 <= b64_char ?v < 128 =>
      assert (0 <= v < 64) as Hv by sextets;
      pose proof (b64_char_range v Hv); lia end.
Qed.

Lemma a2b_base64_char (v : Z) (rest : list Z) (quad_pos leftchar pads : Z) (out : list Z) :
  0 <= v < 64 ->
  a2b_base64 (b64_char v :: rest) quad_pos leftchar pads out =
    if quad_pos =? 0 then a2b_base64 rest 1 v 0 out
    else if quad_pos =? 1
    then a2b_base64 rest 2 (v mod 16) 0 (leftchar * 4 + v / 16 :: out)
    else if quad_pos =? 2
    then a2b_base64 rest 3 (v mod 4) 0 (leftchar * 16 + v / 4 :: out)
    else a2b_base64 rest 0 0 0 (leftchar * 64 + v :: out).
Proof.
  intros Hv. cbn [a2b_base64].
  destruct (b64_char_range v Hv) as [_ Hpad].
  destruct (Z.eqb_spec (b64_char v) 61); [done|].
  by rewrite b64_value_char.
Qed.

Lemma a2b_base64_encode (bs out : list Z) :
  byte_range bs -> a2b_base64 (b64encode bs) 0 0 0 out = Some (rev out ++ bs)%list.
Proof.
  unfold byte_range. revert out.
  induction bs as [|a|a b|a b c l IH] using list_ind3; intros out Hbs;
    repeat match goal with H : Forall _ (_ :: _) |- _ => apply Forall_cons in H; destruct H end;
    cbn [b64encode].
  - cbn. by rewrite app_nil_r.
  - rewrite !a2b_base64_char by sextets. cbn. do 2 f_equal. bytes_back.
  - rewrite !a2b_base64_char by sextets. cbn. rewrite <- !app_assoc. cbn [app].
    do 2 f_equal. bytes_back.
  - rewrite !a2b_base64_char by sextets. cbn [Z.eqb Pos.eqb].
    rewrite IH by done. cbn [rev]. rewrite <- !app_assoc. cbn [app].
    do 2 f_equal. bytes_back.
Qed.

Lemma b64decode_b64encode (bs : list Z) : byte_range bs -> b64decode (b64encode bs) = Some bs.
Proof.
  intros Hbs. unfold b64decode.
  assert (forallb (fun c => c <? 128) (b64encode bs) = true) as ->.
  { apply forallb_forall. intros c Hc.
    pose proof (b64encode_range bs Hbs) as Hr.
    rewrite List.Forall_forall in Hr. specialize (Hr c Hc). lia. }
  by rewrite a2b_base64_encode.
Qed.

Lemma utf8_valid_app (a b : list Z) :
  utf8_valid a = true -> utf8_valid b = true -> utf8_valid (a ++ b) = true.
Proof.
  intros Ha Hb. remember (length a) as n eqn:Hn.
  revert a Hn Ha. induction n as [n IH] using lt_wf_ind. intros a Hn Ha.
  destruct a as [|b0 r0]; [exact Hb|].
  cbn [app utf8_valid] in *.
  destruct (b0 <? 128); [apply (IH (length r0)); cbn in *; [lia|done..]|].
  destruct ((194 <=? b0) && (b0 <=? 223)).
  { destruct r0 as [|b1 r1]; [done|]. cbn [app].
    apply andb_prop in Ha as [-> Ha]. apply (IH (length r1)); cbn in *; [lia|done..]. }
  destruct ((224 <=? b0) && (b0 <=? 239)).
  { destruct r0 as [|b1 [|b2 r2]]; [done..|]. cbn [app].
    apply andb_prop in Ha as [Ha1 Ha]. rewrite Ha1.
    apply (IH (length r2)); cbn in *; [lia|done..]. }
  destruct ((240 <=? b0) && (b0 <=? 244)); [|done].
  destruct r0 as [|b1 [|b2 [|b3 r3]]]; [done..|]. cbn [app].
  apply andb_prop in Ha as [Ha1 Ha]. rewrite Ha1.
  apply (IH (length r3)); cbn in *; [lia|done..].
Qed.

End base64_and_utf8.

Lemma split_colon_app (before after : string) :
  split_colon before = None ->
  split_colon (before ++ ":" ++ after) = Some (before, after).
Proof.
  induction before as [|c before IH]; [reflexivity|].
  change (String c before ++ ":" ++ after) with (String c (before ++ ":" ++ after)).
  cbn [split_colon]. destruct (Ascii.eqb c ":"); [done|].
  destruct (split_colon before) as [[??]|]; [done|]. intros _. by rewrite IH.
Qed.

Lemma split_colon_Some (s before after : string) :
  split_colon s = Some (before, after) ->
  s = before ++ ":" ++ after /\ split_colon before = None.
Proof.
  revert before. induction s as [|c s IH]; intros before; [done|].
  cbn [split_colon]. destruct (Ascii.eqb_spec c ":") as [->|Hc].
  { intros [= <- <-]. done. }
  destruct (split_colon s) as [[b a]|]; [|done]. intros [= <- <-].
  destruct (IH b eq_refl) as [-> Hb]. split; [done|].
  cbn [split_colon]. destruct (Ascii.eqb_spec c ":"); [done|]. by rewrite Hb.
Qed.

Lemma prefix_app (p s : string) : String.prefix p (p ++ s) = true.
Proof.
  induction p as [|c p IH]; [by destruct s|].
  change (String c p ++ s) with (String c (p ++ s)).
  cbn [String.prefix]. by destruct (ascii_dec c c).
Qed.

(** What [parse_auth_header] reads in a header that [create_auth_header]
    wrote: the credentials as they were joined, cut at their first colon. *)
Lemma parse_create_auth_header (username password : string) :
  is_str username -> is_str password ->
  Some (parse_auth_header (create_auth_header username password)) =
    split_colon (username ++ ":" ++ password).
Proof.
  unfold is_str. intros Hu Hp.
  unfold parse_auth_header, create_auth_header.
  set (credentials := username ++ ":" ++ password).
  set (encoded := Codec.string_of_bytes _).
  rewrite prefix_app.
  change (drop_chars 6 ("Basic " ++ encoded)) with encoded.
  change (truthy ("Basic " ++ encoded)) with true.
  cbn [negb orb]. subst encoded.
  pose proof (bytes_of_string_range credentials) as Hr.
  rewrite bytes_of_string_of_bytes.
  2:{ eapply Forall_impl; [apply b64encode_range, Hr|]. cbn. lia. }
  rewrite b64decode_b64encode by done.
  assert (Codec.utf8_valid (Hashlib.bytes_of_string credentials) = true) as ->.
  { subst credentials. rewrite !bytes_of_string_app.
    apply utf8_valid_app; [done|]. by apply (utf8_valid_app [58%Z]). }
  rewrite string_of_bytes_of_string.
  destruct (split_colon credentials) as [[u p]|] eqn:Hsplit; [done|].
  exfalso. subst credentials. clear -Hsplit.
  induction username as [|c username IH]; [done|].
  change (String c username ++ ":" ++ password)
    with (String c (username ++ ":" ++ password)) in Hsplit.
  cbn [split_colon] in Hsplit. destruct (Ascii.eqb c ":"); [done|].
  destruct (split_colon (username ++ ":" ++ password)) as [[??]|]; [done|]. by apply IH.
Qed.

(** X16. The header round trip: what [parse_auth_header] reads in the
    header [create_auth_header] wrote is the user name and the password
    it was written from, for every password and every user name without
    a colon. *)
Theorem auth_header_round_trip (username password : string) :
  is_str username -> is_str password -> split_colon username = None ->
  parse_auth_header (create_auth_header username password) = (username, password).
Proof.
  intros Hu Hp Hcolon.
  pose proof (parse_create_auth_header username password Hu Hp) as H.
  rewrite split_colon_app in H by done. by injection H.
Qed.

Lemma auth_header_round_trip_witness :
  parse_auth_header (create_auth_header "alice" "secret") = ("alice", "secret").
Proof. apply auth_header_round_trip; vm_compute; reflexivity. Defined.

(** X17. A user name with a colon does not survive the header: the
    server reads the part before the first colon as the user name, and
    the rest, a colon and the password as the password. *)
Theorem colon_in_username_is_misread (before after password : string) :
  is_str before -> is_str after -> is_str password -> split_colon before = None ->
  parse_auth_header (create_auth_header (before ++ ":" ++ after) password) =
    (before, after ++ ":" ++ password).
Proof.
  intros Hb Ha Hp Hcolon.
  assert (is_str (before ++ ":" ++ after)) as Hu.
  { unfold is_str in *. rewrite !bytes_of_string_app.
    apply utf8_valid_app; [done|]. by apply (utf8_valid_app [58%Z]). }
  pose proof (parse_create_auth_header _ password Hu Hp) as H.
  rewrite !string_app_assoc in H.
  change ((":" ++ after) ++ ":" ++ password) with (":" ++ (after ++ ":" ++ password)) in H.
  rewrite (split_colon_app before) in H by done. by injection H.
Qed.

Lemma colon_in_username_is_misread_witness :
  parse_auth_header (create_auth_header ("corp" ++ ":" ++ "alice") "secret") =
    ("corp", "alice" ++ ":" ++ "secret").
Proof. apply colon_in_username_is_misread; vm_compute; reflexivity. Defined.

(** X18. The user name [parse_auth_header] returns never holds a colon,
    whatever the header is; and a header that does not start with
    [Basic ] gives the empty user name and the empty password. *)
Theorem parsed_username_has_no_colon (auth_header : string) :
  split_colon (parse_auth_header auth_header).1 = None ∧
  (String.prefix "Basic " auth_header = false →
   parse_auth_header auth_header = (EmptyString, EmptyString)).
Proof.
  unfold parse_auth_header. split.
  - destruct (negb (truthy auth_header) || negb (String.prefix "Basic " auth_header));
      [reflexivity|].
    destruct (Codec.b64decode _) as [bytes|]; [|reflexivity].
    destruct (Codec.utf8_valid bytes); [|reflexivity].
    destruct (split_colon (Codec.string_of_bytes bytes)) as [[username password]|] eqn:Hsplit;
      [|reflexivity].
    by destruct (split_colon_Some _ _ _ Hsplit) as [_ Hnone].
  - intros ->. by destruct (truthy auth_header).
Qed.

(** ** The HTTP layer *)

Lemma endswith_slash_inv (s : string) :
  endswith_slash s = true → s = drop_last s ++ "/".
Proof.
  induction s as [|c s IH]; [done|].
  destruct s as [|c' s].
  - cbn. destruct (Ascii.eqb_spec c "/"); [by subst|done].
  - intros H. change (endswith_slash (String c' s) = true) in H.
    change (String c (String c' s) = String c (drop_last (String c' s) ++ "/")).
    by rewrite <- IH.
Qed.

Lemma endswith_slash_app (s : string) :
  endswith_slash (s ++ "/") = true ∧ drop_last (s ++ "/") = s.
Proof.
  induction s as [|c s [IH1 IH2]]; [done|].
  change (String c s ++ "/") with (String c (s ++ "/")).
  destruct (s ++ "/") as [|c' t] eqn:Happ; [by destruct s|].
  change (endswith_slash (String c' t) = true ∧
          String c (drop_last (String c' t)) = String c s).
  by rewrite IH2.
Qed.

Lemma ENDPOINTS_inv endpoint method_name :
  ENDPOINTS !! endpoint = Some method_name →
  (endpoint, method_name) ∈
    [("/file/content", "get_file_content"); ("/file/version", "check_master_version");
     ("/sync/confirm", "confirm_sync"); ("/sync/acknowledge", "acknowledge_sync")].
Proof. apply elem_of_list_to_map_2. Qed.

(** X19. Routing is exact: a path is routed to a method exactly when
    it is one of the four endpoints of the table, as it stands or with
    one slash behind it. *)
Theorem routing_is_exact req method_name :
  (_get_endpoint_and_method req).2 = Some method_name ↔
  ∃ endpoint, ENDPOINTS !! endpoint = Some method_name ∧
    (url_path req = endpoint ∨ url_path req = endpoint ++ "/").
Proof.
  unfold _get_endpoint_and_method. cbn [snd]. split.
  - destruct (endswith_slash (url_path req)) eqn:Hslash; intros Hget.
    + exists (drop_last (url_path req)). split; [done|]. right.
      by apply endswith_slash_inv.
    + exists (url_path req). by split; [|left].
  - intros (endpoint & Hget & [->| ->]).
    + apply ENDPOINTS_inv in Hget. rewrite !elem_of_cons, elem_of_nil in Hget.
      destruct Hget as [H|[H|[H|[H|[]]]]]; injection H as -> ->; reflexivity.
    + destruct (endswith_slash_app endpoint) as [-> ->]. done.
Qed.

(** Through [handle_request] each of the four remote operations answers
    with a response, whatever the parameters are. *)
Lemma handle_request_remote method params ip w :
  method ∈ remote_operations →
  ∃ r w', handle_request method params ip w = (Ok (RetResponse r), w').
Proof.
  unfold remote_operations. rewrite !elem_of_cons, elem_of_nil.
  intros Hmethod.
  assert (∃ h, class_methods !! method = Some h ∧
               h ∈ [h_get_file_content; h_check_master_version; h_confirm_sync;
                    h_acknowledge_sync]) as (h & Hh & Hin).
  { destruct Hmethod as [->|[->|[->|[->|[]]]]]; eexists; (split; [reflexivity|]);
      rewrite !elem_of_cons; tauto. }
  destruct (decide (keywords_fit h params)) as [Hfit|Hunfit].
  2: { destruct (handle_request_unfit method h params ip w Hh Hunfit)
         as (r & w' & _ & _ & -> & _). eauto. }
  unfold handle_request. rewrite (getattr_method _ _ Hh). cbn [callable negb].
  unfold try_except, call. unfold mbind at 1, M_bind at 1.
  rewrite bind_keywords_fit by done.
  set (kwargs := <["client_ip" := ip]> params).
  rewrite !elem_of_cons, elem_of_nil in Hin.
  destruct Hin as [->|[->|[->|[->|[]]]]]; unfold invoke; unfold mbind at 1, M_bind at 1.
  - destruct (perform_ok (GetFileContent (arg kwargs "username") (arg kwargs "password")
        (arg kwargs "client_ip") (default "R" (kwargs !! "protocol"))) w) as (r & w' & Hrun).
    cbn [perform] in Hrun. rewrite Hrun. eauto.
  - destruct (perform_ok (CheckMasterVersion (arg kwargs "username") (arg kwargs "password")
        (arg kwargs "client_ip")) w) as (r & w' & Hrun).
    cbn [perform] in Hrun. rewrite Hrun. eauto.
  - destruct (perform_ok (ConfirmSync (arg kwargs "username") (arg kwargs "password")
        (arg kwargs "sync_id") (arg kwargs "client_ip")) w) as (r & w' & Hrun).
    cbn [perform] in Hrun. rewrite Hrun. eauto.
  - destruct (perform_ok (AcknowledgeSync (arg kwargs "username") (arg kwargs "password")
        (arg kwargs "sync_id") (arg kwargs "client_ip")) w) as (r & w' & Hrun).
    cbn [perform] in Hrun. rewrite Hrun. eauto.
Qed.

Lemma ENDPOINTS_truthy endpoint method_name :
  ENDPOINTS !! endpoint = Some method_name →
  truthy method_name = true ∧ method_name ∈ remote_operations.
Proof.
  intros Hget. split; [|apply ENDPOINTS_range; eauto].
  apply ENDPOINTS_inv in Hget. rewrite !elem_of_cons, elem_of_nil in Hget.
  destruct Hget as [H|[H|[H|[H|[]]]]]; injection H as -> ->; reflexivity.
Qed.

(** What [respond] does with a path that is routed. *)
Lemma respond_routed source req w method_name :
  (_get_endpoint_and_method req).2 = Some method_name →
  ∃ r w',
    handle_request method_name
      (<["password" := (parse_auth_header (authorization req)).2]>
         (<["username" := (parse_auth_header (authorization req)).1]> (source req)))
      (remote_ip req) w = (Ok (RetResponse r), w') ∧
    respond source req (Some w) =
      (Ok {| status_code := if success r then 200 else 400; body := Dumps r |}, Some w').
Proof.
  unfold respond. destruct (_get_endpoint_and_method req) as [endpoint routed] eqn:Hroute.
  cbn [snd]. intros ->.
  assert (ENDPOINTS !! endpoint = Some method_name) as Hget.
  { unfold _get_endpoint_and_method in Hroute. by injection Hroute as <- <-. }
  destruct (ENDPOINTS_truthy _ _ Hget) as [-> Hremote]. cbn [negb].
  unfold _handle_request, _get_auth_credentials.
  destruct (parse_auth_header (authorization req)) as [username password]. cbn [fst snd].
  destruct (handle_request_remote method_name
              (<["password" := password]> (<["username" := username]> (source req)))
              (remote_ip req) w Hremote) as (r & w' & Hrun).
  exists r, w'. by rewrite Hrun.
Qed.

(** X20. With a dispatcher in place, [do_GET] and [do_POST] answer every
    request whose parameters are strings, and raise nothing: a path that
    is not routed gets 404 and leaves the dispatcher as it was (not even
    a log line); a routed path gets the response of the dispatcher (of
    [handle_request] on the method of the path, with the parameters of
    the request under the credentials of the header, and the address of
    the request) as body, and the state that call leaves, with 200 when
    the response says [success] and 400 otherwise. *)
Theorem http_status_follows_the_response req w (post : bool) :
  ∃ answer w',
    (if post then do_POST else do_GET) req (Some w) = (Ok answer, Some w') ∧
    match (_get_endpoint_and_method req).2 with
    | None =>
        status_code answer = 404%Z ∧ w' = w ∧
        body answer = Failure ("Unknown endpoint: " ++ (_get_endpoint_and_method req).1)
    | Some method_name =>
        ∃ r,
          handle_request method_name
            (<["password" := (parse_auth_header (authorization req)).2]>
               (<["username" := (parse_auth_header (authorization req)).1]>
                  (if post then request_data req else query_params req)))
            (remote_ip req) w = (Ok (RetResponse r), w') ∧
          body answer = Dumps r ∧
          status_code answer = (if success r then 200 else 400)%Z
    end.
Proof.
  assert (∃ source, (if post then do_POST else do_GET) = respond source ∧
                    source req = if post then request_data req else query_params req)
    as (source & -> & <-)
    by (destruct post; [exists request_data | exists query_params]; by split).
  destruct (_get_endpoint_and_method req).2 as [method_name|] eqn:Hroute.
  - destruct (respond_routed source req w method_name Hroute) as (r & w' & Hrun & ->).
    eexists _, _. split; [reflexivity|]. by exists r.
  - unfold respond. destruct (_get_endpoint_and_method req) as [endpoint routed].
    cbn [snd fst] in *. subst routed. eexists _, _. by split_and!.
Qed.

(** X21. The credentials come from the Authorization header alone: a
    [username] or [password] among the query parameters or in the body
    is overwritten before the dispatcher is called, so it changes
    nothing of the answer or of the state. *)
Theorem credentials_come_from_the_header path query data header ip username password d :
  do_GET {| url_path := path; query_params := <["username" := username]> (<["password" := password]> query);
            request_data := data; authorization := header; remote_ip := ip |} d =
  do_GET {| url_path := path; query_params := query;
            request_data := data; authorization := header; remote_ip := ip |} d ∧
  do_POST {| url_path := path; query_params := query;
             request_data := <["username" := username]> (<["password" := password]> data);
             authorization := header; remote_ip := ip |} d =
  do_POST {| url_path := path; query_params := query;
             request_data := data; authorization := header; remote_ip := ip |} d.
Proof.
  unfold do_GET, do_POST, _get_endpoint_and_method, _handle_request,
    _get_auth_credentials.
  cbn [url_path query_params request_data authorization remote_ip].
  destruct (parse_auth_header header) as [u p].
  assert (∀ m : gmap string string,
            <["password" := p]> (<["username" := u]>
              (<["username" := username]> (<["password" := password]> m))) =
            <["password" := p]> (<["username" := u]> m)) as Hover.
  { intros m. rewrite insert_insert_eq.
    rewrite (insert_insert_ne _ "username" "password") by done.
    by rewrite insert_insert_eq. }
  by rewrite !Hover.
Qed.

Lemma route_endpoint req endpoint method_name :
  ENDPOINTS !! endpoint = Some method_name →
  url_path req = endpoint →
  _get_endpoint_and_method req = (endpoint, Some method_name).
Proof.
  intros Hget Hpath. unfold _get_endpoint_and_method. rewrite Hpath.
  apply ENDPOINTS_inv in Hget. rewrite !elem_of_cons, elem_of_nil in Hget.
  destruct Hget as [H|[H|[H|[H|[]]]]]; injection H as -> ->; reflexivity.
Qed.

(** A request body with a key that the method has no parameter for. *)
Lemma post_with_stray_key req w endpoint method_name h key :
  ENDPOINTS !! endpoint = Some method_name →
  class_methods !! method_name = Some h →
  url_path req = endpoint →
  key ∈ dom (request_data req) →
  key ∉ (required h ++ optional h)%list →
  ∃ r w', do_POST req (Some w) = (Ok {| status_code := 400; body := Dumps r |}, Some w') ∧
    success r = false ∧ data r = None ∧
    sync_records w' = sync_records w ∧
    master_file w' = master_file w.
Proof.
  intros Hget Hh Hpath Hkey Hstray.
  pose proof (route_endpoint req endpoint method_name Hget Hpath) as Hroute.
  destruct (respond_routed request_data req w method_name) as (r & w' & Hrun & Hrespond).
  { by rewrite Hroute. }
  change (do_POST req (Some w)) with (respond request_data req (Some w)).
  rewrite Hrespond. clear Hrespond.
  match type of Hrun with handle_request _ ?params _ _ = _ =>
    destruct (handle_request_unfit method_name h params (remote_ip req) w Hh)
      as (r2 & w2 & _ & _ & Hrun2 & Hs & Hd & _ & Hl & Hm & _)
  end.
  { intros (Hall & _). apply Hstray. apply (elem_of_list_to_set (C := gset string)). apply Hall.
    rewrite !dom_insert, !elem_of_union. tauto. }
  rewrite Hrun in Hrun2. injection Hrun2 as <- <-.
  exists r, w'. rewrite Hs. by split_and!.
Qed.

(** X22. The confirmation and the acknowledgment as
    [create_confirmation] and [create_acknowledgment] compose them are
    refused: a POST on /sync/confirm (/sync/acknowledge) whose body has
    the keys of that message is answered with 400 and a failure, because
    [confirm_sync] ([acknowledge_sync]) has no parameter [confirmation]
    ([acknowledgment]) nor [timestamp], and the ledger is left as it
    was. The body is taken with string values; binding looks at the keys
    only. *)
Theorem stub_messages_are_refused sync_id client client' message req w :
  (create_confirmation sync_id client = (Ok message, client') ∧
   url_path req = "/sync/confirm") ∨
  (create_acknowledgment sync_id client = (Ok message, client') ∧
   url_path req = "/sync/acknowledge") →
  dom (request_data req) = dom message →
  ∃ r w', do_POST req (Some w) = (Ok {| status_code := 400; body := Dumps r |}, Some w') ∧
    success r = false ∧ data r = None ∧
    sync_records w' = sync_records w ∧
    master_file w' = master_file w.
Proof.
  intros [[Hmessage Hpath]|[Hmessage Hpath]] Hdom.
  - apply (post_with_stray_key req w "/sync/confirm" "confirm_sync" h_confirm_sync
             "confirmation"); [reflexivity..|done| |].
    + rewrite Hdom. injection Hmessage as <- _.
      rewrite !dom_insert, !elem_of_union, !elem_of_singleton. tauto.
    + cbn. rewrite !elem_of_cons, elem_of_nil. intros [?|[?|[?|[?|[]]]]]; discriminate.
  - apply (post_with_stray_key req w "/sync/acknowledge" "acknowledge_sync" h_acknowledge_sync
             "acknowledgment"); [reflexivity..|done| |].
    + rewrite Hdom. injection Hmessage as <- _.
      rewrite !dom_insert, !elem_of_union, !elem_of_singleton. tauto.
    + cbn. rewrite !elem_of_cons, elem_of_nil. intros [?|[?|[?|[?|[]]]]]; discriminate.
Qed.

Lemma params_of_arguments c :
  <["password" := (credentials c).2]> (<["username" := (credentials c).1]> (arguments_of c)) =
  params_of c.
Proof.
  destruct c as [u p ip protocol|u p ip|u p sid ip|u p sid ip];
    cbn [credentials arguments_of params_of fst snd]; unfold singletonM, map_singleton.
  - rewrite (insert_insert_ne _ "username" "protocol") by done.
    rewrite (insert_insert_ne _ "password" "protocol") by done.
    by rewrite (insert_insert_ne _ "password" "username") by done.
  - by rewrite (insert_insert_ne _ "password" "username") by done.
  - rewrite (insert_insert_ne _ "username" "sync_id") by done.
    rewrite (insert_insert_ne _ "password" "sync_id") by done.
    by rewrite (insert_insert_ne _ "password" "username") by done.
  - rewrite (insert_insert_ne _ "username" "sync_id") by done.
    rewrite (insert_insert_ne _ "password" "sync_id") by done.
    by rewrite (insert_insert_ne _ "password" "username") by done.
Qed.

Lemma endpoint_of_method c : ENDPOINTS !! endpoint_of c = Some (method_of c).
Proof. by destruct c. Qed.

(** X23. The HTTP layer is transparent for a well-formed request: when
    the path is the endpoint of an operation, the header is the one
    [create_auth_header] writes for the credentials, and the parameters
    (of the query for [do_GET], of the body for [do_POST]) are the
    arguments of the call, the body of the answer is the response of the
    direct call, the state is the state it leaves, and the status is 200
    or 400 by its [success]. *)
Theorem http_request_is_the_call c w req (post : bool) :
  is_str (credentials c).1 → is_str (credentials c).2 →
  split_colon (credentials c).1 = None →
  url_path req = endpoint_of c →
  authorization req = create_auth_header (credentials c).1 (credentials c).2 →
  remote_ip req = caller_ip c →
  (if post then request_data req else query_params req) = arguments_of c →
  ∃ r w', perform c w = (Ok r, w') ∧
    (if post then do_POST else do_GET) req (Some w) =
      (Ok {| status_code := if success r then 200 else 400; body := Dumps r |}, Some w').
Proof.
  intros Hu Hp Hcolon Hpath Hauth Hip Hargs.
  destruct (perform_ok c w) as (r & w' & Hrun). exists r, w'. split; [assumption|].
  pose proof (route_endpoint req _ _ (endpoint_of_method c) Hpath) as Hroute.
  assert (parse_auth_header (authorization req) = ((credentials c).1, (credentials c).2))
    as Hparse.
  { rewrite Hauth. pose proof (parse_create_auth_header _ _ Hu Hp) as H.
    rewrite split_colon_app in H by done. by injection H. }
  assert (∃ source, (if post then do_POST else do_GET) = respond source ∧
                    source req = arguments_of c) as (source & -> & Hsource)
    by (destruct post; [exists request_data | exists query_params]; by split).
  destruct (respond_routed source req w (method_of c)) as (r2 & w2 & Hrun2 & ->).
  { by rewrite Hroute. }
  rewrite Hparse, Hsource in Hrun2. cbn [fst snd] in Hrun2.
  rewrite params_of_arguments, Hip in Hrun2.
  rewrite (handle_request_perform c w r w' Hrun) in Hrun2.
  by injection Hrun2 as <- <-.
Qed.

Lemma stub_messages_are_refused_witness :
  ∃ r w',
    do_POST confirmation_request (Some open_delivery) =
      (Ok {| status_code := 400; body := Dumps r |}, Some w') ∧
    success r = false ∧ data r = None ∧
    sync_records w' = sync_records open_delivery ∧
    master_file w' = master_file open_delivery.
Proof.
  apply (stub_messages_are_refused "6fa459ea-ee8a-4ca4-894e-db77e160355e" Sample.server
           (with_tick Sample.server) confirmation_message confirmation_request open_delivery).
  - left. split; reflexivity.
  - vm_compute. reflexivity.
Defined.

Lemma http_request_is_the_call_witness :
  ∃ r w',
    perform (GetFileContent "alice" "secret" "10.0.0.1" "RRA") Sample.server = (Ok r, w') ∧
    do_GET content_request (Some Sample.server) =
      (Ok {| status_code := if success r then 200 else 400; body := Dumps r |}, Some w').
Proof.
  apply (http_request_is_the_call (GetFileContent "alice" "secret" "10.0.0.1" "RRA")
           Sample.server content_request false).
  - vm_compute. reflexivity.
  - vm_compute. reflexivity.
  - vm_compute. reflexivity.
  - reflexivity.
  - vm_compute. reflexivity.
  - reflexivity.
  - reflexivity.
Defined.
